(** * homebridge-openclaw: a shallow embedding of [index.js]

    The plugin exposes a small REST API in front of Homebridge Config UI X.
    This development embeds the functions of [index.js] that carry its
    design: [resolveApiToken], [UiClient] (auth mode and credential),
    [parseAccessories], [mapType], [resolveAction], [clamp] and the two
    control routes of [setupRoutes].

    Conventions of the embedding.
    - A JavaScript string is a [string]: a sequence of code units below 256
      (the Latin-1 range), on which [toLowerCase] and [trim] are written out
      in full.
    - A JavaScript number is an IEEE 754 double, [spec_float] of the Standard
      Library (signed zeros, infinities and NaN included).
    - The values of a request body are [JSValue]s; the documents the plugin
      reads with a declared shape (config.json, .uix-secrets, auth.json, the
      accessory snapshot) are records whose fields have the declared type
      and may be missing.
    - Effects are explicit: the file system, the environment, the log and the
      upstream hub are threaded as state; a thrown exception is a result.
      A route handler runs from start to end on the session it is given:
      other requests served between two of its awaits are not modelled. *)

From Stdlib Require Import ZArith Ascii String List Bool Lia.
From Stdlib Require Import Floats.SpecFloat.
From stdpp Require Import gmap strings list.

Local Open Scope Z_scope.

#[local] Set Warnings "-register-all".

(** ** JavaScript strings *)

Abbreviation strlen := String.length.

(** [s || d] on an optional string: the empty string and [undefined] are
    falsy. *)
Definition str_truthy (s : string) : bool :=
  match s with EmptyString => false | String _ _ => true end.

Definition opt_truthy (o : option string) : bool :=
  match o with Some s => str_truthy s | None => false end.

Definition or_str (o : option string) (d : string) : string :=
  match o with
  | Some s => if str_truthy s then s else d
  | None => d
  end.

(** First truthy of two optional strings ([a || b]); the result is [b] when
    [a] is falsy. *)
Definition or_opt (a b : option string) : option string :=
  if opt_truthy a then a else b.

(** [String.prototype.toLowerCase] on code units below 256: A-Z and the
    Latin-1 capitals U+00C0..U+00DE other than the multiplication sign move
    up by 32. *)
Definition lower_char (c : ascii) : ascii :=
  let n := N_of_ascii c in
  if ((65 <=? n) && (n <=? 90))%N
     || ((192 <=? n) && (n <=? 222) && negb (n =? 215))%N
  then ascii_of_N (n + 32)
  else c.

Fixpoint toLowerCase (s : string) : string :=
  match s with
  | EmptyString => EmptyString
  | String c s' => String (lower_char c) (toLowerCase s')
  end.

(** White space and line terminators removed by [String.prototype.trim],
    below 256: TAB, LF, VT, FF, CR, SP and NBSP. *)
Definition is_white_space (c : ascii) : bool :=
  let n := N_of_ascii c in
  ((n =? 9) || (n =? 10) || (n =? 11) || (n =? 12) || (n =? 13)
   || (n =? 32) || (n =? 160))%N.

Fixpoint trimStart (s : string) : string :=
  match s with
  | EmptyString => EmptyString
  | String c s' => if is_white_space c then trimStart s' else s
  end.

Fixpoint trimEnd (s : string) : string :=
  match s with
  | EmptyString => EmptyString
  | String c s' =>
      match trimEnd s' with
      | EmptyString => if is_white_space c then EmptyString else String c EmptyString
      | t => String c t
      end
  end.

Definition trim (s : string) : string := trimEnd (trimStart s).

Fixpoint startsWith (p s : string) : bool :=
  match p, s with
  | EmptyString, _ => true
  | String a p', String b s' => Ascii.eqb a b && startsWith p' s'
  | String _ _, EmptyString => false
  end.

(** [s.includes(p)]: [p] occurs in [s] as a contiguous run. *)
Fixpoint includes (p s : string) : bool :=
  startsWith p s
  || match s with
     | EmptyString => false
     | String _ s' => includes p s'
     end.

(** [s.slice(0, n)] for [0 <= n]. *)
Definition slice0 (n : nat) (s : string) : string := String.substring 0 n s.

(** ** Device type classification: [mapType] *)

Definition mapType (humanType : option string) : string :=
  let t := toLowerCase (or_str humanType "") in
  if includes "light" t || includes "bulb" t then "lightbulb"
  else if includes "switch" t then "switch"
  else if includes "outlet" t then "outlet"
  else if includes "thermostat" t then "thermostat"
  else if includes "lock" t then "lock"
  else if includes "fan" t then "fan"
  else if includes "window" t || includes "blind" t || includes "covering" t
       then "blinds"
  else if includes "garage" t then "garage"
  else if includes "motion" t then "motion"
  else if includes "temperature" t then "sensor"
  else if includes "humidity" t then "sensor"
  else if includes "contact" t then "sensor"
  else if includes "camera" t then "camera"
  else "other".

(** The classification as the specification words it: an ordered table of
    (substrings, canonical type), first match wins, ["other"] otherwise. *)
Definition classification_table : list (list string * string) :=
  [ (["light"; "bulb"], "lightbulb");
    (["switch"], "switch");
    (["outlet"], "outlet");
    (["thermostat"], "thermostat");
    (["lock"], "lock");
    (["fan"], "fan");
    (["window"; "blind"; "covering"], "blinds");
    (["garage"], "garage");
    (["motion"], "motion");
    (["temperature"], "sensor");
    (["humidity"], "sensor");
    (["contact"], "sensor");
    (["camera"], "camera") ].

Fixpoint first_match (table : list (list string * string)) (t : string) : string :=
  match table with
  | [] => "other"
  | (subs, canonical) :: rest =>
      if existsb (fun p => includes p t) subs then canonical
      else first_match rest t
  end.

(** ** Node's [crypto]: SHA-256 and HMAC-SHA256

    [createHash('sha256')] and [createHmac('sha256', key)] are modelled by
    the algorithms themselves (FIPS 180-4, RFC 2104), on 32-bit words held
    in [Z] with the wrap-around written out. A string argument is hashed as
    its UTF-8 bytes. *)

Definition w32 (x : Z) : Z := Z.land x 0xffffffff.
Definition add32 (a b : Z) : Z := w32 (a + b).
Definition rotr (n x : Z) : Z := Z.lor (Z.shiftr x n) (w32 (Z.shiftl x (32 - n))).
Definition not32 (x : Z) : Z := Z.lxor x 0xffffffff.
Definition Ch (x y z : Z) : Z := Z.lxor (Z.land x y) (Z.land (not32 x) z).
Definition Maj (x y z : Z) : Z := Z.lxor (Z.lxor (Z.land x y) (Z.land x z)) (Z.land y z).
Definition Sigma0 (x : Z) : Z := Z.lxor (Z.lxor (rotr 2 x) (rotr 13 x)) (rotr 22 x).
Definition Sigma1 (x : Z) : Z := Z.lxor (Z.lxor (rotr 6 x) (rotr 11 x)) (rotr 25 x).
Definition sigma0 (x : Z) : Z := Z.lxor (Z.lxor (rotr 7 x) (rotr 18 x)) (Z.shiftr x 3).
Definition sigma1 (x : Z) : Z := Z.lxor (Z.lxor (rotr 17 x) (rotr 19 x)) (Z.shiftr x 10).

(** The round constants: the first 32 bits of the fractional parts of the
    cube roots of the first 64 primes; the initial hash value takes the
    square roots of the first 8. *)
Definition first_primes : list Z :=
  [ 2; 3; 5; 7; 11; 13; 17; 19; 23; 29; 31; 37; 41; 43; 47; 53;
    59; 61; 67; 71; 73; 79; 83; 89; 97; 101; 103; 107; 109; 113; 127; 131;
    137; 139; 149; 151; 157; 163; 167; 173; 179; 181; 191; 193; 197; 199; 211; 223;
    227; 229; 233; 239; 241; 251; 257; 263; 269; 271; 277; 281; 283; 293; 307; 311 ].

(** The integer cube root between [lo] and [hi], by bisection. *)
Fixpoint cube_root_between (fuel : nat) (lo hi n : Z) : Z :=
  match fuel with
  | O => lo
  | S fuel' =>
      if hi - lo <=? 1 then lo
      else
        let mid := (lo + hi) / 2 in
        if mid * mid * mid <=? n
        then cube_root_between fuel' mid hi n
        else cube_root_between fuel' lo mid n
  end.

Definition cube_root_fraction (p : Z) : Z :=
  w32 (cube_root_between 64 0 (2 ^ 36) (p * 2 ^ 96)).

Definition square_root_fraction (p : Z) : Z :=
  w32 (Z.sqrt (p * 2 ^ 64)).

Definition K256 : list Z :=
  Eval vm_compute in map cube_root_fraction first_primes.

Record Sha256State := mkSha
  { h0 : Z; h1 : Z; h2 : Z; h3 : Z; h4 : Z; h5 : Z; h6 : Z; h7 : Z }.

Definition sha256_init : Sha256State :=
  Eval vm_compute in
    match map square_root_fraction (firstn 8 first_primes) with
    | [a; b; c; d; e; f; g; h] => mkSha a b c d e f g h
    | _ => mkSha 0 0 0 0 0 0 0 0
    end.

(** Big-endian 32-bit words of a byte sequence (a trailing partial word is
    dropped; padded messages have none). *)
Fixpoint be_words (bs : list Z) : list Z :=
  match bs with
  | a :: b :: c :: d :: rest =>
      (Z.shiftl a 24 + Z.shiftl b 16 + Z.shiftl c 8 + d) :: be_words rest
  | _ => []
  end.

Definition be_bytes (nbytes : nat) (x : Z) : list Z :=
  map (fun i => Z.land (Z.shiftr x (8 * Z.of_nat i)) 0xff) (rev (seq 0 nbytes)).

(** Message padding: 0x80, zeros up to 56 mod 64, the bit length on 64 bits. *)
Definition sha256_pad (msg : list Z) : list Z :=
  let len := Z.of_nat (List.length msg) in
  let zeros := Z.to_nat ((55 - len) mod 64) in
  msg ++ [0x80] ++ repeat 0 zeros ++ be_bytes 8 (8 * len).

(** The message schedule: 48 more words after the 16 of the block. *)
Fixpoint schedule (n : nat) (w : list Z) : list Z :=
  match n with
  | O => w
  | S n' =>
      let t := List.length w in
      let at_ k := nth (t - k) w 0 in
      schedule n'
        (w ++ [add32 (add32 (sigma1 (at_ 2%nat)) (at_ 7%nat))
                      (add32 (sigma0 (at_ 15%nat)) (at_ 16%nat))])
  end.

Definition sha256_round (s : Sha256State) (kw : Z * Z) : Sha256State :=
  let '(k, w) := kw in
  let t1 := add32 (add32 (add32 (add32 (h7 s) (Sigma1 (h4 s))) (Ch (h4 s) (h5 s) (h6 s))) k) w in
  let t2 := add32 (Sigma0 (h0 s)) (Maj (h0 s) (h1 s) (h2 s)) in
  mkSha (add32 t1 t2) (h0 s) (h1 s) (h2 s) (add32 (h3 s) t1) (h4 s) (h5 s) (h6 s).

Definition sha256_block (s : Sha256State) (block : list Z) : Sha256State :=
  let w := schedule 48 block in
  let r := fold_left sha256_round (combine K256 w) s in
  mkSha (add32 (h0 s) (h0 r)) (add32 (h1 s) (h1 r)) (add32 (h2 s) (h2 r))
        (add32 (h3 s) (h3 r)) (add32 (h4 s) (h4 r)) (add32 (h5 s) (h5 r))
        (add32 (h6 s) (h6 r)) (add32 (h7 s) (h7 r)).

Fixpoint sha256_blocks (n : nat) (s : Sha256State) (ws : list Z) : Sha256State :=
  match n with
  | O => s
  | S n' => sha256_blocks n' (sha256_block s (firstn 16 ws)) (skipn 16 ws)
  end.

Definition sha256 (msg : list Z) : Sha256State :=
  let ws := be_words (sha256_pad msg) in
  sha256_blocks (List.length ws / 16) sha256_init ws.

Definition state_words (s : Sha256State) : list Z :=
  [h0 s; h1 s; h2 s; h3 s; h4 s; h5 s; h6 s; h7 s].

Definition digest_bytes (s : Sha256State) : list Z :=
  concat (map (be_bytes 4) (state_words s)).

Definition hex_digit (n : nat) : ascii :=
  match n with
  | 0 => "0" | 1 => "1" | 2 => "2" | 3 => "3" | 4 => "4" | 5 => "5"
  | 6 => "6" | 7 => "7" | 8 => "8" | 9 => "9" | 10 => "a" | 11 => "b"
  | 12 => "c" | 13 => "d" | 14 => "e" | _ => "f"
  end%nat%char.

Definition nibble (x : Z) (i : Z) : ascii :=
  hex_digit (Z.to_nat (Z.land (Z.shiftr x (4 * i)) 0xf)).

Definition hex_word (x : Z) (rest : string) : string :=
  String (nibble x 7) (String (nibble x 6) (String (nibble x 5) (String (nibble x 4)
  (String (nibble x 3) (String (nibble x 2) (String (nibble x 1) (String (nibble x 0) rest))))))).

Definition digest_hex (s : Sha256State) : string :=
  hex_word (h0 s) (hex_word (h1 s) (hex_word (h2 s) (hex_word (h3 s)
  (hex_word (h4 s) (hex_word (h5 s) (hex_word (h6 s) (hex_word (h7 s) ""))))))).

(** UTF-8 bytes of a string of code units below 256. *)
Fixpoint utf8 (s : string) : list Z :=
  match s with
  | EmptyString => []
  | String c s' =>
      let n := Z.of_N (N_of_ascii c) in
      if n <? 128 then n :: utf8 s'
      else (0xc0 + Z.shiftr n 6) :: (0x80 + Z.land n 0x3f) :: utf8 s'
  end.

Definition hmac_sha256 (key msg : list Z) : Sha256State :=
  let k0 := if (64 <? List.length key)%nat then digest_bytes (sha256 key) else key in
  let k := k0 ++ repeat 0 (64 - List.length k0) in
  let ipad := map (fun b => Z.lxor b 0x36) k in
  let opad := map (fun b => Z.lxor b 0x5c) k in
  sha256 (opad ++ digest_bytes (sha256 (ipad ++ msg))).


(** ** JavaScript numbers

    A number is an IEEE 754 double. [num z] is the double of an integer
    literal. *)

Definition number : Type := spec_float.

Definition num (z : Z) : number := binary_normalize 53 1024 z 0 false.

Definition NaN : number := S754_nan.

Definition is_nan (x : number) : bool :=
  match x with S754_nan => true | _ => false end.

Definition num_add : number -> number -> number := SFadd 53 1024.
Definition num_sub : number -> number -> number := SFsub 53 1024.
Definition num_mul : number -> number -> number := SFmul 53 1024.

(** [a >= b] on numbers: false as soon as one side is NaN. *)
Definition num_ge (a b : number) : bool := SFleb b a.

(** [Math.max] and [Math.min] of two numbers: NaN if either is NaN, and
    [+0] counts as larger than [-0]. *)
Definition Math_max (a b : number) : number :=
  match SFcompare a b with
  | None => NaN
  | Some Gt => a
  | Some Lt => b
  | Some Eq => match a with S754_zero true => b | _ => a end
  end.

Definition Math_min (a b : number) : number :=
  match SFcompare a b with
  | None => NaN
  | Some Lt => a
  | Some Gt => b
  | Some Eq => match a with S754_zero false => b | _ => a end
  end.

(** ** JavaScript values

    The values a JSON body can carry, [undefined] for a missing field, and
    the two objects reachable from the prototype of an object literal under
    a lower-case key. *)

Inductive Builtin := ObjectConstructor | ObjectPrototype.

Inductive JSValue :=
  | VUndefined
  | VNull
  | VBool (b : bool)
  | VNum (n : number)
  | VStr (s : string)
  | VArr (items : list JSValue)
  | VObj (fields : list (string * JSValue))
  | VBuiltin (b : Builtin).

(** [Boolean(v)], the truthiness used by [if], [!], [||] and [?:]. *)
Definition Boolean (v : JSValue) : bool :=
  match v with
  | VUndefined | VNull => false
  | VBool b => b
  | VNum (S754_zero _) | VNum S754_nan => false
  | VNum _ => true
  | VStr s => str_truthy s
  | VArr _ | VObj _ | VBuiltin _ => true
  end.

(** The own property [k] of an object; [undefined] when there is none. *)
Fixpoint lookup_field (k : string) (fields : list (string * JSValue)) : JSValue :=
  match fields with
  | [] => VUndefined
  | (k', v) :: rest => if String.eqb k k' then v else lookup_field k rest
  end.

(** [v?.k] for a key [k] that no prototype defines ("hue", "saturation",
    "access_token", "expires_in"). *)
Definition optional_member (v : JSValue) (k : string) : JSValue :=
  match v with
  | VObj fields => lookup_field k fields
  | _ => VUndefined
  end.

(** ** Documents read from the Homebridge storage directory *)

(** [.uix-secrets]: the shared secret key of Config UI X, a string when
    the document has one. *)
Record SecretsDoc := { secrets_secretKey : option string }.

(** [auth.json]: the users of Config UI X, each with a name and the
    administrator flag; the document is an array of them, or something
    else. *)
Record User := { username : string; admin : bool }.

Inductive AuthDoc :=
  | UsersArray (users : list User)
  | NotAnArray.

(** The claims signed by [_signJwt]. *)
Record JwtPayload := {
  jwt_username : option string;
  jwt_name : option string;
  jwt_admin : bool;
  jwt_instanceId : option string
}.

(** ** The upstream protocol *)

(** The [fetch] calls of [UiClient]: the login and the characteristic
    write. [authorization] is the header value; [put_uniqueId] is the path
    segment before percent-encoding. *)
Inductive Request :=
  | LoginRequest (baseUrl : string) (login_username login_password : option string)
  | PutCharacteristic (baseUrl : string) (put_uniqueId : string)
      (put_characteristicType : string) (put_value : JSValue)
      (authorization : string).

(** What [fetch] resolves to. [res_text] and [res_json] are [None] when
    reading the body rejects. *)
Record HttpResponse := {
  res_ok : bool;
  res_status : nat;
  res_text : option string;
  res_json : option JSValue
}.

Inductive Reply :=
  | Rejected (reason : string)
  | Responded (res : HttpResponse).

(** ** The host: what the plugin calls and does not define

    [path.resolve], [JSON.parse] at the two document types, the conversions
    between numbers and strings, [jsonwebtoken.sign], the clock and the HTTP
    exchange with Config UI X. The hub state [Hub] carries whatever the
    outside world remembers between two calls. *)
Class Host := {
  path_resolve : string -> string -> string;
  parse_secrets : string -> option SecretsDoc;
  parse_users : string -> option AuthDoc;
  NumberToString : number -> string;
  StringToNumber : string -> number;
  jwt_sign : JwtPayload -> option string -> number -> string;
  Hub : Type;
  Date_now : Hub -> number;
  fetch : Request -> Hub -> Hub * Reply
}.

Section Conversions.
Context `{Host}.

(** [String(v)]. An array joins its elements with commas, [null] and
    [undefined] elements as the empty string. *)
Fixpoint ToString (v : JSValue) : string :=
  match v with
  | VUndefined => "undefined"
  | VNull => "null"
  | VBool true => "true"
  | VBool false => "false"
  | VNum n => NumberToString n
  | VStr s => s
  | VArr items =>
      (fix join (l : list JSValue) : string :=
         match l with
         | [] => ""
         | x :: rest =>
             let sx := match x with
                       | VUndefined | VNull => ""
                       | _ => ToString x
                       end in
             match rest with
             | [] => sx
             | _ :: _ => sx +:+ "," +:+ join rest
             end
         end) items
  | VObj _ => "[object Object]"
  | VBuiltin ObjectConstructor => "function Object() { [native code] }"
  | VBuiltin ObjectPrototype => "[object Object]"
  end.

(** [Number(v)]. *)
Definition Number (v : JSValue) : number :=
  match v with
  | VUndefined => NaN
  | VNull => num 0
  | VBool true => num 1
  | VBool false => num 0
  | VNum n => n
  | VStr s => StringToNumber s
  | VArr _ | VObj _ | VBuiltin _ => StringToNumber (ToString v)
  end.

(** ** Action resolution: [resolveAction] and [clamp] *)

Record Operation := { characteristicType : string; value : JSValue }.

(** The three shapes [resolveAction] returns: [null], one operation
    object, or an array of operations. *)
Inductive Resolved :=
  | Null
  | One (op : Operation)
  | Many (ops : list Operation).

(** [MODE_MAP[key]]: the four own keys, and the two lower-case keys the
    object inherits. *)
Definition MODE_MAP (key : string) : JSValue :=
  if String.eqb key "off" then VNum (num 0)
  else if String.eqb key "heat" then VNum (num 1)
  else if String.eqb key "cool" then VNum (num 2)
  else if String.eqb key "auto" then VNum (num 3)
  else if String.eqb key "constructor" then VBuiltin ObjectConstructor
  else if String.eqb key "__proto__" then VBuiltin ObjectPrototype
  else VUndefined.

(** [a ?? b] *)
Definition nullish_or (a b : JSValue) : JSValue :=
  match a with
  | VUndefined | VNull => b
  | _ => a
  end.

Definition clamp (v : JSValue) (min max : number) : number :=
  Math_max min (Math_min max (Number v)).

(** [case label:] of [switch (action)], a strict equality. *)
Definition is_case (action : JSValue) (label : string) : bool :=
  match action with
  | VStr a => String.eqb a label
  | _ => false
  end.

Definition resolveAction (action v : JSValue) : Resolved :=
  if is_case action "on" || is_case action "power" then
    One {| characteristicType := "On"; value := VBool (Boolean v) |}
  else if is_case action "toggle" then
    One {| characteristicType := "On"; value := VBool (Boolean v) |}
  else if is_case action "brightness" || is_case action "dim" then
    One {| characteristicType := "Brightness"; value := VNum (clamp v (num 0) (num 100)) |}
  else if is_case action "hue" then
    One {| characteristicType := "Hue"; value := VNum (clamp v (num 0) (num 360)) |}
  else if is_case action "saturation" then
    One {| characteristicType := "Saturation"; value := VNum (clamp v (num 0) (num 100)) |}
  else if is_case action "color" then
    let ops := [] in
    let ops :=
      match optional_member v "hue" with
      | VUndefined => ops
      | hue => ops ++ [ {| characteristicType := "Hue"; value := VNum (Number hue) |} ]
      end in
    let ops :=
      match optional_member v "saturation" with
      | VUndefined => ops
      | saturation =>
          ops ++ [ {| characteristicType := "Saturation";
                      value := VNum (Number saturation) |} ]
      end in
    Many ops
  else if is_case action "colorTemperature" || is_case action "ct" then
    One {| characteristicType := "ColorTemperature"; value := VNum (Number v) |}
  else if is_case action "targetTemperature" || is_case action "temperature" then
    One {| characteristicType := "TargetTemperature"; value := VNum (Number v) |}
  else if is_case action "thermostatMode" || is_case action "mode" then
    One {| characteristicType := "TargetHeatingCoolingState";
           value := nullish_or (MODE_MAP (toLowerCase (ToString v))) (VNum (Number v)) |}
  else if is_case action "lock" then
    One {| characteristicType := "LockTargetState";
           value := VNum (if Boolean v then num 1 else num 0) |}
  else if is_case action "speed" || is_case action "rotationSpeed" then
    One {| characteristicType := "RotationSpeed"; value := VNum (clamp v (num 0) (num 100)) |}
  else if is_case action "position" || is_case action "targetPosition" then
    One {| characteristicType := "TargetPosition"; value := VNum (clamp v (num 0) (num 100)) |}
  else if is_case action "tilt" || is_case action "targetTilt" then
    One {| characteristicType := "TargetHorizontalTiltAngle";
           value := VNum (clamp v (num (-90)) (num 90)) |}
  else if is_case action "garageDoor" || is_case action "garage" then
    One {| characteristicType := "TargetDoorState";
           value := VNum (if Boolean v then num 0 else num 1) |}
  else Null.

End Conversions.

(** ** Constants *)

Definition PLUGIN_NAME : string := "homebridge-openclaw".
Definition ACCESSORY_NAME : string := "OpenClawAPI".
Definition DEFAULT_UI_URL : string := "http://localhost:8581".
Definition TOKEN_FILE_NAME : string := ".openclaw-token".
Definition TOKEN_ENV_VAR : string := "OPENCLAW_HB_TOKEN".

(** ** The process environment, the file system and the log

    A path holds a regular file, or something that exists and cannot be
    read or written ([Locked]: a directory, a file without permission), or
    nothing. [unwritable] are the paths where creating or replacing a file
    fails. The log keeps one event per [log.info], [log.warn] or [log.error]
    call, without the formatting. *)

Inductive Node :=
  | Locked
  | File (content : string).

Inductive LogLevel := LInfo | LWarn | LError.

Inductive LogEvent :=
  | TokenFromEnv
  | TokenFromFile (path : string)
  | TokenFromConfig
  | TokenSaved (path : string)
  | TokenNotSaved
  | TokenBannerRule
  | TokenBanner (generated : string)
  | TokenBannerHint
  | AuthModeJwtDirect
  | AuthModeLogin
  | AuthModeNone
  | AuthModeNoneHint.

Record World := {
  env : gmap string string;
  files : gmap string Node;
  unwritable : gset string;
  logged : list (LogLevel * LogEvent)
}.

Definition log_event (level : LogLevel) (ev : LogEvent) (w : World) : World :=
  {| env := env w; files := files w; unwritable := unwritable w;
     logged := logged w ++ [(level, ev)] |}.

Definition existsSync (w : World) (path : string) : bool :=
  match files w !! path with
  | Some _ => true
  | None => false
  end.

(** [readFileSync(path, 'utf8')]; [None] when it throws. *)
Definition readFileSync (w : World) (path : string) : option string :=
  match files w !! path with
  | Some (File content) => Some content
  | Some Locked | None => None
  end.

(** [writeFileSync(path, data, { mode: 0o600 })]; [None] when it throws. *)
Definition writeFileSync (w : World) (path data : string) : option World :=
  if bool_decide (path ∈ unwritable w) then None
  else match files w !! path with
       | Some Locked => None
       | Some (File _) | None =>
           Some {| env := env w; files := <[path := File data]> (files w);
                   unwritable := unwritable w; logged := logged w |}
       end.

(** ** Inbound token resolution: [resolveApiToken] *)

(** The fields of the platform's block of config.json that the plugin
    reads as strings. *)
Record Config := {
  config_token : option string;
  homebridgeUiUrl : option string;
  homebridgeUiUser : option string;
  homebridgeUiPass : option string
}.

Record ApiToken := { token : string; source : string }.

(** The [message] of the errors the client throws. *)
Inductive ErrorMessage :=
  | NoAuthMethod
  | LoginFailed (status : nat) (text : string)
  | PutFailed (failed_characteristicType : string) (status : nat) (text : string)
  | FetchRejected (reason : string)
  | BodyNotJson
  | PropertyOfNull
  | UnknownAction (action : string)
  | MissingAction
  | ExpectedDevicesArray.

Inductive Outcome (A : Type) :=
  | Return (a : A)
  | Throw (e : ErrorMessage).
#[global] Arguments Return {A} a.
#[global] Arguments Throw {A} e.

Section Plugin.
Context `{Host}.

(** Layer 4: the seed is the secret key of [.uix-secrets] when the file is
    read, parsed and holds a truthy key, the default seed otherwise. *)
Definition tokenSeed (storagePath : string) (w : World) : string :=
  match readFileSync w (path_resolve storagePath ".uix-secrets") with
  | Some text =>
      match parse_secrets text with
      | Some secrets => or_str (secrets_secretKey secrets) "openclaw-default-seed"
      | None => "openclaw-default-seed"
      end
  | None => "openclaw-default-seed"
  end.

Definition generateToken (secretKey : string) : string :=
  slice0 48 (digest_hex (hmac_sha256 (utf8 secretKey) (utf8 "openclaw-hb-api-token"))).

Definition autoGenerate (storagePath tokenFilePath : string) (w : World)
  : World * ApiToken :=
  let secretKey := tokenSeed storagePath w in
  let generated := generateToken secretKey in
  let w1 :=
    match writeFileSync w tokenFilePath (generated +:+ String "010"%char "") with
    | Some w' => log_event LInfo (TokenSaved tokenFilePath) w'
    | None => log_event LWarn TokenNotSaved w
    end in
  let w2 := log_event LInfo TokenBannerRule w1 in
  let w3 := log_event LInfo (TokenBanner generated) w2 in
  let w4 := log_event LInfo TokenBannerHint w3 in
  let w5 := log_event LInfo TokenBannerRule w4 in
  (w5, {| token := generated; source := "auto" |}).

Definition resolveApiToken (config : Config) (storagePath : string) (w : World)
  : World * ApiToken :=
  let tokenFilePath := path_resolve storagePath TOKEN_FILE_NAME in
  (* Layer 4: auto-generate from secretKey *)
  let layer4 := autoGenerate storagePath tokenFilePath w in
  (* Layer 3: config.json field *)
  let layer3 :=
    match config_token config with
    | Some t =>
        if str_truthy t && (8 <=? strlen t)%nat
        then (log_event LInfo TokenFromConfig w, {| token := t; source := "config" |})
        else layer4
    | None => layer4
    end in
  (* Layer 2: token file *)
  let layer2 :=
    if existsSync w tokenFilePath then
      match readFileSync w tokenFilePath with
      | Some content =>
          let fileToken := trim content in
          if (16 <=? strlen fileToken)%nat
          then (log_event LInfo (TokenFromFile tokenFilePath) w,
                {| token := fileToken; source := "file" |})
          else layer3
      | None => layer3
      end
    else layer3 in
  (* Layer 1: environment variable *)
  match env w !! TOKEN_ENV_VAR with
  | Some e =>
      if str_truthy e
      then (log_event LInfo TokenFromEnv w, {| token := e; source := "env" |})
      else layer2
  | None => layer2
  end.

(** ** [UiClient]: the bridge to Config UI X *)

Inductive AuthMode := ModeJwtDirect | ModeLogin | ModeNone.

Record UiClient := {
  storagePath : string;
  baseUrl : string;
  uiUser : option string;
  uiPass : option string;
  jwt : JSValue;
  jwtExpires : number;
  secretKey : option string;
  adminUser : option string;
  instanceId : option string;
  authMode : AuthMode
}.

(** [s.replace(/\/+$/, '')] *)
Fixpoint stripTrailingSlashes (s : string) : string :=
  match s with
  | EmptyString => EmptyString
  | String c s' =>
      match stripTrailingSlashes s' with
      | EmptyString => if Ascii.eqb c "/" then EmptyString else String c EmptyString
      | t => String c t
      end
  end.

(** [x || null] *)
Definition or_null (o : option string) : option string :=
  if opt_truthy o then o else None.

(** The first half of [_detectAuthMode]: [secretKey] and [instanceId] from
    [.uix-secrets]; both stay [null] when reading or parsing throws or the
    key is falsy. *)
Definition readSecretKey (storagePath : string) (w : World)
  : option string * option string :=
  match readFileSync w (path_resolve storagePath ".uix-secrets") with
  | Some text =>
      match parse_secrets text with
      | Some secrets =>
          match secrets_secretKey secrets with
          | Some key =>
              if str_truthy key
              then (Some key, Some (digest_hex (sha256 (utf8 key))))
              else (None, None)
          | None => (None, None)
          end
      | None => (None, None)
      end
  | None => (None, None)
  end.

(** The second half: the username of the first administrator of
    [auth.json]. *)
Definition readAdminUser (storagePath : string) (w : World) : option string :=
  match readFileSync w (path_resolve storagePath "auth.json") with
  | Some text =>
      match parse_users text with
      | Some (UsersArray users) =>
          match find (fun u => admin u) users with
          | Some u => Some (username u)
          | None => None
          end
      | Some NotAnArray | None => None
      end
  | None => None
  end.

Definition detectAuthMode (c : UiClient) (w : World) : World * UiClient :=
  let '(key, instance) := readSecretKey (storagePath c) w in
  let adminName := readAdminUser (storagePath c) w in
  let c1 :=
    {| storagePath := storagePath c; baseUrl := baseUrl c;
       uiUser := uiUser c; uiPass := uiPass c;
       jwt := jwt c; jwtExpires := jwtExpires c;
       secretKey := key; adminUser := adminName; instanceId := instance;
       authMode := authMode c |} in
  let with_mode (m : AuthMode) :=
    {| storagePath := storagePath c1; baseUrl := baseUrl c1;
       uiUser := uiUser c1; uiPass := uiPass c1;
       jwt := jwt c1; jwtExpires := jwtExpires c1;
       secretKey := secretKey c1; adminUser := adminUser c1;
       instanceId := instanceId c1; authMode := m |} in
  if opt_truthy (secretKey c1) && opt_truthy (adminUser c1) then
    (log_event LInfo AuthModeJwtDirect w, with_mode ModeJwtDirect)
  else if opt_truthy (uiUser c1) && opt_truthy (uiPass c1) then
    (log_event LInfo AuthModeLogin w, with_mode ModeLogin)
  else
    (log_event LError AuthModeNoneHint (log_event LError AuthModeNone w), c1).

(** [new UiClient({ storagePath, uiUrl, uiUser, uiPass, log })] *)
Definition newUiClient (path : string) (uiUrl user pass : option string) (w : World)
  : World * UiClient :=
  detectAuthMode
    {| storagePath := path;
       baseUrl := stripTrailingSlashes (or_str uiUrl DEFAULT_UI_URL);
       uiUser := or_null user; uiPass := or_null pass;
       jwt := VNull; jwtExpires := num 0;
       secretKey := None; adminUser := None; instanceId := None;
       authMode := ModeNone |} w.

(** The client, the hub it talks to, and every request sent so far. *)
Record Session := {
  client : UiClient;
  hub : Hub;
  sent : list Request
}.

Definition setCredential (c : UiClient) (j : JSValue) (expires : number) : UiClient :=
  {| storagePath := storagePath c; baseUrl := baseUrl c;
     uiUser := uiUser c; uiPass := uiPass c;
     jwt := j; jwtExpires := expires;
     secretKey := secretKey c; adminUser := adminUser c;
     instanceId := instanceId c; authMode := authMode c |}.

(** [await fetch(...)]: the request is recorded and the hub moves on. *)
Definition doFetch (req : Request) (s : Session) : Session * Reply :=
  let '(hub1, reply) := fetch req (hub s) in
  ({| client := client s; hub := hub1; sent := sent s ++ [req] |}, reply).

Definition signJwt (c : UiClient) (now : number) : string :=
  jwt_sign {| jwt_username := adminUser c; jwt_name := adminUser c;
              jwt_admin := true; jwt_instanceId := instanceId c |}
           (secretKey c) now.

(** [!this.jwt || Date.now() >= this.jwtExpires] *)
Definition credentialStale (s : Session) : bool :=
  negb (Boolean (jwt (client s))) || num_ge (Date_now (hub s)) (jwtExpires (client s)).

Definition loginAuth (s : Session) : Session * Outcome unit :=
  let c := client s in
  let '(s1, reply) := doFetch (LoginRequest (baseUrl c) (uiUser c) (uiPass c)) s in
  match reply with
  | Rejected reason => (s1, Throw (FetchRejected reason))
  | Responded res =>
      if negb (res_ok res) then
        (s1, Throw (LoginFailed (res_status res) (default "" (res_text res))))
      else
        match res_json res with
        | None => (s1, Throw BodyNotJson)
        | Some VNull | Some VUndefined => (s1, Throw PropertyOfNull)
        | Some data =>
            let expires_in := optional_member data "expires_in" in
            let seconds := if Boolean expires_in then expires_in else VNum (num 28800) in
            ({| client :=
                  setCredential c (optional_member data "access_token")
                    (num_add (Date_now (hub s1))
                       (num_mul (num_sub (Number seconds) (num 60)) (num 1000)));
                hub := hub s1; sent := sent s1 |},
             Return tt)
        end
  end.

(** [UiClient.token()] *)
Definition clientToken (s : Session) : Session * Outcome JSValue :=
  match authMode (client s) with
  | ModeJwtDirect =>
      if credentialStale s then
        let now := Date_now (hub s) in
        let c1 := setCredential (client s) (VStr (signJwt (client s) now))
                    (num_add now (num (7 * 3600 * 1000))) in
        ({| client := c1; hub := hub s; sent := sent s |}, Return (jwt c1))
      else (s, Return (jwt (client s)))
  | ModeLogin =>
      if credentialStale s then
        match loginAuth s with
        | (s1, Throw e) => (s1, Throw e)
        | (s1, Return _) => (s1, Return (jwt (client s1)))
        end
      else (s, Return (jwt (client s)))
  | ModeNone => (s, Throw NoAuthMethod)
  end.

(** [UiClient.setCharacteristic(uniqueId, characteristicType, value)] *)
Definition setCharacteristic (uniqueId : JSValue) (ctype : string) (v : JSValue)
    (s : Session) : Session * Outcome JSValue :=
  match clientToken s with
  | (s1, Throw e) => (s1, Throw e)
  | (s1, Return tok) =>
      let req := PutCharacteristic (baseUrl (client s1)) (ToString uniqueId) ctype v
                   ("Bearer " +:+ ToString tok) in
      let '(s2, reply) := doFetch req s1 in
      match reply with
      | Rejected reason => (s2, Throw (FetchRejected reason))
      | Responded res =>
          if negb (res_ok res) then
            (s2, Throw (PutFailed ctype (res_status res) (default "" (res_text res))))
          else
            match res_json res with
            | Some body => (s2, Return body)
            | None => (s2, Throw BodyNotJson)
            end
      end
  end.

End Plugin.

(** ** The device catalog: [parseAccessories] *)

(** One service record of the snapshot of [GET /api/accessories], with the
    fields [parseAccessories] reads; [None] is a missing field. *)
Record AccessoryInformation := {
  info_Name : option string;
  info_Manufacturer : option string;
  info_Model : option string
}.

Record Characteristic := {
  char_type : string;
  canWrite : bool
}.

Record Service := {
  serviceName : option string;
  accessoryInformation : option AccessoryInformation;
  humanType : option string;
  type : option string;
  uniqueId : option string;
  serviceCharacteristics : option (list Characteristic);
  values : option JSValue
}.

(** What [getAccessories] resolved to: an array of services, or anything
    else. *)
Inductive RawSnapshot :=
  | RawArray (services : list Service)
  | RawOther.

Record Device := {
  device_id : string;
  device_name : string;
  device_type : string;
  device_humanType : string;
  device_state : JSValue;
  device_characteristics : list string;
  device_manufacturer : string;
  device_model : string
}.

(** [svc.accessoryInformation?.field] *)
Definition info_field (svc : Service) (field : AccessoryInformation -> option string)
  : option string :=
  match accessoryInformation svc with
  | Some info => field info
  | None => None
  end.

(** [svc.serviceName || svc.accessoryInformation?.Name || ''] *)
Definition serviceDisplayName (svc : Service) : string :=
  or_str (or_opt (serviceName svc) (info_field svc info_Name)) "".

(** [svc.humanType || svc.type || 'Unknown'] *)
Definition serviceTypeLabel (svc : Service) : string :=
  or_str (or_opt (humanType svc) (type svc)) "Unknown".

(** The body of the [for] loop: [devices] after one more service. *)
Definition parseService (devices : list Device) (svc : Service) : list Device :=
  let name := serviceDisplayName svc in
  let label := serviceTypeLabel svc in
  match uniqueId svc with
  | None => devices
  | Some uid =>
      if negb (str_truthy uid)
         || String.eqb label "AccessoryInformation"
         || String.eqb label "ProtocolInformation"
      then devices
      else if String.eqb (toLowerCase name) "openclaw api" then devices
      else
        let chars := default [] (serviceCharacteristics svc) in
        let writableChars := map char_type (filter (fun c => canWrite c = true) chars) in
        devices ++
          [ {| device_id := uid;
               device_name := name;
               device_type := mapType (Some label);
               device_humanType := label;
               device_state :=
                 match values svc with
                 | Some v => if Boolean v then v else VObj []
                 | None => VObj []
                 end;
               device_characteristics := writableChars;
               device_manufacturer := or_str (info_field svc info_Manufacturer) "";
               device_model := or_str (info_field svc info_Model) "" |} ]
  end.

Definition parseAccessories (raw : RawSnapshot) : list Device :=
  let list := match raw with RawArray services => services | RawOther => [] end in
  fold_left parseService list [].

(** ** The control routes of [setupRoutes] *)

(** The body of [POST /api/devices/:id/control] and one element of the
    [devices] array of [POST /api/devices/control]; a missing field is
    [undefined]. The elements of the array are objects: an element [null]
    is outside this model. *)
Record ControlRequest := { req_action : JSValue; req_value : JSValue }.

Record BatchItem := { item_id : JSValue; item_action : JSValue; item_value : JSValue }.

(** One entry of the batch results: [{ id, success }] or
    [{ id, success: false, error }]. *)
Record BatchResult := {
  result_id : JSValue;
  success : bool;
  error : option ErrorMessage
}.

Inductive ResponseBody :=
  | BadRequest (message : ErrorMessage)
  | ControlError (message : ErrorMessage)
  | ControlDone (id : string) (action : JSValue) (results : list JSValue)
  | BatchDone (results : list BatchResult).

Record Response := { status : nat; body : ResponseBody }.

(** [const { action, value } = req.body || {}] *)
Definition requestAction (reqBody : option ControlRequest) : JSValue :=
  match reqBody with
  | Some b => req_action b
  | None => VUndefined
  end.

Definition requestValue (reqBody : option ControlRequest) : JSValue :=
  match reqBody with
  | Some b => req_value b
  | None => VUndefined
  end.

(** [Array.isArray(resolved) ? resolved : [resolved]] *)
Definition operationsOf (resolved : Resolved) : list Operation :=
  match resolved with
  | Many ops => ops
  | One op => [op]
  | Null => []
  end.

Section Routes.
Context `{Host}.

(** [for (const op of ops) results.push(await uiClient.setCharacteristic(...))]
    : the loop stops at the first operation that throws. *)
Fixpoint writeAll (uniqueId : JSValue) (ops : list Operation) (results : list JSValue)
    (s : Session) : Session * Outcome (list JSValue) :=
  match ops with
  | [] => (s, Return results)
  | op :: rest =>
      match setCharacteristic uniqueId (characteristicType op) (value op) s with
      | (s1, Throw e) => (s1, Throw e)
      | (s1, Return r) => writeAll uniqueId rest (results ++ [r]) s1
      end
  end.

(** [POST /api/devices/:id/control] *)
Definition controlOne (id : string) (reqBody : option ControlRequest) (s : Session)
  : Session * Response :=
  let action := requestAction reqBody in
  let v := requestValue reqBody in
  if negb (Boolean action) then
    (s, {| status := 400; body := BadRequest MissingAction |})
  else
    match resolveAction action v with
    | Null => (s, {| status := 400; body := BadRequest (UnknownAction (ToString action)) |})
    | resolved =>
        match writeAll (VStr id) (operationsOf resolved) [] s with
        | (s1, Return results) =>
            (s1, {| status := 200; body := ControlDone id action results |})
        | (s1, Throw e) =>
            (s1, {| status := 502; body := ControlError e |})
        end
    end.

(** The body of the [for (const item of devices)] loop: the session and the
    entry pushed for one item. *)
Definition controlItem (item : BatchItem) (s : Session) : Session * BatchResult :=
  match resolveAction (item_action item) (item_value item) with
  | Null =>
      (s, {| result_id := item_id item; success := false;
             error := Some (UnknownAction (ToString (item_action item))) |})
  | resolved =>
      match writeAll (item_id item) (operationsOf resolved) [] s with
      | (s1, Return _) =>
          (s1, {| result_id := item_id item; success := true; error := None |})
      | (s1, Throw e) =>
          (s1, {| result_id := item_id item; success := false; error := Some e |})
      end
  end.

Fixpoint batchLoop (devices : list BatchItem) (results : list BatchResult) (s : Session)
  : Session * list BatchResult :=
  match devices with
  | [] => (s, results)
  | item :: rest =>
      let '(s1, entry) := controlItem item s in
      batchLoop rest (results ++ [entry]) s1
  end.

(** [POST /api/devices/control]; [devices] is [None] when the body has no
    array under that key. *)
Definition controlBatch (devices : option (list BatchItem)) (s : Session)
  : Session * Response :=
  match devices with
  | None => (s, {| status := 400; body := BadRequest ExpectedDevicesArray |})
  | Some items =>
      let '(s1, results) := batchLoop items [] s in
      (s1, {| status := 200; body := BatchDone results |})
  end.

End Routes.

(** ** The token sources as the specification words them

    Each source either offers a token or does not; the resolved token is the
    offer of the first source of the list that has one, tagged with its
    provenance, and the fallback when none has. *)

Definition envSource (w : World) : option string :=
  match env w !! TOKEN_ENV_VAR with
  | Some e => if str_truthy e then Some e else None
  | None => None
  end.

Definition fileSource `{Host} (storagePath : string) (w : World) : option string :=
  match readFileSync w (path_resolve storagePath TOKEN_FILE_NAME) with
  | Some content =>
      if (16 <=? strlen (trim content))%nat then Some (trim content) else None
  | None => None
  end.

Definition configSource (config : Config) : option string :=
  match config_token config with
  | Some t => if (8 <=? strlen t)%nat then Some t else None
  | None => None
  end.

Fixpoint firstSource (sources : list (option string * string)) (fallback : ApiToken)
  : ApiToken :=
  match sources with
  | [] => fallback
  | (Some t, tag) :: _ => {| token := t; source := tag |}
  | (None, _) :: rest => firstSource rest fallback
  end.

Definition is_hex_char (c : ascii) : bool :=
  let n := N_of_ascii c in
  (((48 <=? n) && (n <=? 57)) || ((97 <=? n) && (n <=? 102)))%N.

Fixpoint string_forall (p : ascii -> bool) (s : string) : bool :=
  match s with
  | EmptyString => true
  | String c s' => p c && string_forall p s'
  end.

(** ** A small host for the examples

    Documents are kept in a bare format: [.uix-secrets] holds the secret key
    and [auth.json] the name of one administrator. The hub counts the
    requests it has answered; it answers 500 to a write on the device
    "broken", 400 to a write of Saturation on the device "plain", 200 with
    an empty object to any other write, and a login with a fixed
    credential. *)

Definition exampleFetch (req : Request) (h : nat) : nat * Reply :=
  match req with
  | LoginRequest _ _ _ =>
      (S h, Responded {| res_ok := true; res_status := 201; res_text := None;
                         res_json := Some (VObj [("access_token", VStr "credential")]) |})
  | PutCharacteristic _ uid ctype _ _ =>
      if String.eqb uid "broken" then
        (S h, Responded {| res_ok := false; res_status := 500;
                           res_text := Some "no such device"; res_json := None |})
      else if String.eqb uid "plain" && String.eqb ctype "Saturation" then
        (S h, Responded {| res_ok := false; res_status := 400;
                           res_text := Some "no such characteristic"; res_json := None |})
      else
        (S h, Responded {| res_ok := true; res_status := 200; res_text := None;
                           res_json := Some (VObj []) |})
  end.

Definition exampleHost : Host :=
  {| path_resolve := fun base name => base +:+ "/" +:+ name;
     parse_secrets := fun text => Some {| secrets_secretKey := Some text |};
     parse_users := fun text => Some (UsersArray [ {| username := text; admin := true |} ]);
     NumberToString := fun _ => "0";
     StringToNumber := fun _ => NaN;
     jwt_sign := fun _ _ _ => "signed";
     Hub := nat;
     Date_now := fun _ => num 1000;
     fetch := exampleFetch |}.

Definition emptyWorld : World :=
  {| env := ∅; files := ∅; unwritable := ∅; logged := [] |}.

Definition noConfig : Config :=
  {| config_token := None; homebridgeUiUrl := None;
     homebridgeUiUser := None; homebridgeUiPass := None |}.

(** A storage directory with both documents of the secret material. *)
Definition secretsWorld : World :=
  {| env := ∅;
     files := {[ "/s/.uix-secrets" := File "0f1e2d3c"; "/s/auth.json" := File "admin" ]};
     unwritable := ∅; logged := [] |}.

(** ** The secret material as the specification words it *)

(** A shared secret key is readable: [.uix-secrets] is read and parsed and
    holds a non-empty key. *)
Definition SecretKeyAvailable `{Host} (storagePath : string) (w : World) : Prop :=
  exists text doc key,
    readFileSync w (path_resolve storagePath ".uix-secrets") = Some text
    /\ parse_secrets text = Some doc
    /\ secrets_secretKey doc = Some key
    /\ key <> "".

(** An administrator username is readable: [auth.json] is read and parsed as
    an array whose first administrator has a non-empty name. *)
Definition AdminUserAvailable `{Host} (storagePath : string) (w : World) : Prop :=
  exists text users u,
    readFileSync w (path_resolve storagePath "auth.json") = Some text
    /\ parse_users text = Some (UsersArray users)
    /\ find (fun u => admin u) users = Some u
    /\ username u <> "".

(** A username and a password are declared in the configuration. *)
Definition CredentialsDeclared (user pass : option string) : Prop :=
  (exists u, user = Some u /\ u <> "") /\ (exists p, pass = Some p /\ p <> "").

(** ** The range-valued actions as the specification lists them

    Action name, characteristic written, inclusive lower and upper bound. *)
Definition rangeActions : list (string * (string * (Z * Z))) :=
  [ ("brightness", ("Brightness", (0, 100)));
    ("dim", ("Brightness", (0, 100)));
    ("hue", ("Hue", (0, 360)));
    ("saturation", ("Saturation", (0, 100)));
    ("speed", ("RotationSpeed", (0, 100)));
    ("rotationSpeed", ("RotationSpeed", (0, 100)));
    ("position", ("TargetPosition", (0, 100)));
    ("targetPosition", ("TargetPosition", (0, 100)));
    ("tilt", ("TargetHorizontalTiltAngle", (-90, 90)));
    ("targetTilt", ("TargetHorizontalTiltAngle", (-90, 90))) ].

(** ** The catalog filter as the specification words it *)

(** The record lacks a stable id. *)
Definition LacksId (svc : Service) : Prop :=
  uniqueId svc = None \/ uniqueId svc = Some "".

(** The record is of one of the two structural types. *)
Definition StructuralType (svc : Service) : Prop :=
  serviceTypeLabel svc = "AccessoryInformation"
  \/ serviceTypeLabel svc = "ProtocolInformation".

(** The display name equals [name] up to letter case. *)
Definition NamedLike (name : string) (svc : Service) : Prop :=
  toLowerCase (serviceDisplayName svc) = toLowerCase name.

(** A switch that carries the name under which the plugin registers. *)
Definition selfNamedService : Service :=
  {| serviceName := Some "OpenClawAPI";
     accessoryInformation := None;
     humanType := Some "Switch";
     type := Some "Switch";
     uniqueId := Some "5f2a";
     serviceCharacteristics := Some [ {| char_type := "On"; canWrite := true |} ];
     values := None |}.

(** ** Sequential execution of operations, as a step relation

    [RunsTo uid ops s s' results failure]: from session [s], the operations
    [ops] are written to the device [uid] one after the other, in order;
    [results] are the answers of those that succeeded; the run ends in [s']
    after the last operation ([failure = None]) or right after the first
    one that throws, which [failure] names with its error. *)


(** The characteristic writes among the requests sent: device, characteristic
    and value of each, in the order they were sent. *)
Definition writesOf (requests : list Request) : list (string * string * JSValue) :=
  flat_map (fun req =>
              match req with
              | PutCharacteristic _ uid ctype v _ => [(uid, ctype, v)]
              | LoginRequest _ _ _ => []
              end) requests.



(** A session of the example host whose client signs its own credential. *)
Definition exampleSession : @Session exampleHost :=
  @Build_Session exampleHost
    (snd (@newUiClient exampleHost "/s" None None None secretsWorld))
    (0%nat : @Hub exampleHost)
    [].

Definition turnOn (uid : string) : BatchItem :=
  {| item_id := VStr uid; item_action := VStr "on"; item_value := VBool true |}.

(** The colour request [{ action: "color", value: { hue: 10, saturation: 80 } }]. *)
Definition colorRequest : option ControlRequest :=
  Some {| req_action := VStr "color";
          req_value := VObj [("hue", VNum (num 10)); ("saturation", VNum (num 80))] |}.

(** * The rest of [index.js]

    The storage path detection, the platform constructor, the bearer check
    and the read routes. Express matches the path and the method of a
    request before a handler runs; a request is modelled from there on, as
    the route it matched with its parameters ([ApiRequest]). The rate
    limiter in front of every route is a library and is left out, and so
    are the [timestamp] of the health answer and the [name] of the
    platform. *)

Definition VERSION : string := "2.2.0".

(** ** [detectStoragePath] *)

(** [homedir] is what [os.homedir()] returns. *)
Definition storageCandidates `{Host} (homedir : string) : list string :=
  [ "/var/lib/homebridge"; path_resolve homedir ".homebridge" ].

Definition detectStoragePath `{Host} (homedir : string) (w : World) : string :=
  let scan :=
    match find (fun p => existsSync w (path_resolve p ".uix-secrets"))
               (storageCandidates homedir) with
    | Some p => p
    | None => "/var/lib/homebridge"
    end in
  match env w !! "UIX_STORAGE_PATH" with
  | Some p => if str_truthy p then p else scan
  | None => scan
  end.

(** ** The constructor of [OpenClawPlatform]

    The storage path is detected, the API token resolved, then the client
    built, in this order and on the same storage path. *)

Record Platform := {
  platform_storagePath : string;
  platform_apiToken : string;
  platform_uiClient : UiClient
}.

Definition newPlatform `{Host} (homedir : string) (config : Config) (w : World)
  : World * Platform :=
  let path := detectStoragePath homedir w in
  let '(w1, resolved) := resolveApiToken config path w in
  let '(w2, c) :=
    newUiClient path (homebridgeUiUrl config) (homebridgeUiUser config)
      (homebridgeUiPass config) w1 in
  (w2, {| platform_storagePath := path;
          platform_apiToken := token resolved;
          platform_uiClient := c |}).

(** ** The bearer check: [auth] *)

(** [s.substring(n)] *)
Fixpoint substringFrom (n : nat) (s : string) : string :=
  match n, s with
  | O, _ => s
  | S _, EmptyString => EmptyString
  | S n', String _ s' => substringFrom n' s'
  end.

(** [true] when the middleware calls [next()], [false] when it answers
    401. [authorization] is [req.headers.authorization]. *)
Definition auth (authorization : option string) (apiToken : string) : bool :=
  let h := or_str authorization "" in
  if negb (startsWith "Bearer " h) || negb (String.eqb (substringFrom 7 h) apiToken)
  then false
  else true.

(** ** Reading the snapshot: [UiClient.getAccessories] *)

(** What the [fetch] of [GET /api/accessories] resolves to; [snapshot_json]
    is [None] when [res.json()] rejects. *)
Inductive SnapshotReply :=
  | SnapshotRejected (reason : string)
  | SnapshotResponded (snapshot_ok : bool) (snapshot_status : nat)
      (snapshot_json : option RawSnapshot).

(** The host answers the read as it answers the other requests, from the
    base URL and the authorization header, on the same hub state. *)
Class CatalogHost `{Host} := {
  fetchAccessories : string -> string -> Hub -> Hub * SnapshotReply
}.

(** The [message] of what [getAccessories] throws: an error of the client,
    or the status of the read. *)
Inductive ReadError :=
  | ViaClient (e : ErrorMessage)
  | GetFailed (status : nat).

Inductive ReadOutcome :=
  | Snapshot (raw : RawSnapshot)
  | ReadFailed (e : ReadError).

(** The gateway behind the routes: the API token, the session of the client,
    and the reads sent so far, each with its base URL and authorization
    header. *)
Record Gateway `{Host} := {
  apiToken : string;
  session : Session;
  reads : list (string * string)
}.

Inductive CatalogBody :=
  | Health (health_status plugin version : string) (health_devices : nat)
  | DeviceList (count : nat) (devices : list Device)
  | DeviceFound (device : Device)
  | NotFound (id : string)
  | UpstreamError (e : ReadError)
  | Unauthorized.

Inductive ApiResponse :=
  | Catalog (code : nat) (answer : CatalogBody)
  | Control (response : Response).

(** The six routes of [setupRoutes], after Express has matched them. *)
Inductive ApiRequest :=
  | GetHealth
  | GetDevices
  | GetDevicesByType (type_param : string)
  | GetDevice (id_param : string)
  | PostControl (id_param : string) (reqBody : option ControlRequest)
  | PostBatch (devices : option (list BatchItem)).

Section ReadRoutes.
Context `{CatalogHost}.

Definition withSession (g : Gateway) (s : Session) : Gateway :=
  {| apiToken := apiToken g; session := s; reads := reads g |}.

Definition getAccessories (g : Gateway) : Gateway * ReadOutcome :=
  match clientToken (session g) with
  | (s1, Throw e) => (withSession g s1, ReadFailed (ViaClient e))
  | (s1, Return tok) =>
      let authorization := "Bearer " +:+ ToString tok in
      let '(hub1, reply) := fetchAccessories (baseUrl (client s1)) authorization (hub s1) in
      let g1 :=
        {| apiToken := apiToken g;
           session := {| client := client s1; hub := hub1; sent := sent s1 |};
           reads := reads g ++ [(baseUrl (client s1), authorization)] |} in
      match reply with
      | SnapshotRejected reason => (g1, ReadFailed (ViaClient (FetchRejected reason)))
      | SnapshotResponded ok status json =>
          if negb ok then (g1, ReadFailed (GetFailed status))
          else match json with
               | Some raw => (g1, Snapshot raw)
               | None => (g1, ReadFailed (ViaClient BodyNotJson))
               end
      end
  end.

(** [GET /health] *)
Definition healthRoute (g : Gateway) : Gateway * ApiResponse :=
  match getAccessories g with
  | (g1, Snapshot raw) =>
      (g1, Catalog 200 (Health "ok" PLUGIN_NAME VERSION (length (parseAccessories raw))))
  | (g1, ReadFailed _) =>
      (g1, Catalog 200 (Health "degraded" PLUGIN_NAME VERSION 0))
  end.

(** [GET /api/devices] *)
Definition listDevices (g : Gateway) : Gateway * ApiResponse :=
  match getAccessories g with
  | (g1, Snapshot raw) =>
      let devices := parseAccessories raw in
      (g1, Catalog 200 (DeviceList (length devices) devices))
  | (g1, ReadFailed e) => (g1, Catalog 502 (UpstreamError e))
  end.

(** [GET /api/devices/type/:type] *)
Definition listDevicesByType (type_param : string) (g : Gateway)
  : Gateway * ApiResponse :=
  match getAccessories g with
  | (g1, Snapshot raw) =>
      let devices :=
        List.filter (fun d => String.eqb (device_type d) (toLowerCase type_param))
          (parseAccessories raw) in
      (g1, Catalog 200 (DeviceList (length devices) devices))
  | (g1, ReadFailed e) => (g1, Catalog 502 (UpstreamError e))
  end.

(** [GET /api/devices/:id] *)
Definition getDevice (id_param : string) (g : Gateway) : Gateway * ApiResponse :=
  match getAccessories g with
  | (g1, Snapshot raw) =>
      match find (fun d => String.eqb (device_id d) id_param) (parseAccessories raw) with
      | Some device => (g1, Catalog 200 (DeviceFound device))
      | None => (g1, Catalog 404 (NotFound id_param))
      end
  | (g1, ReadFailed e) => (g1, Catalog 502 (UpstreamError e))
  end.

(** A request through the bearer check and on to its handler; the health
    route is registered without the check. *)
Definition serve (authorization : option string) (req : ApiRequest) (g : Gateway)
  : Gateway * ApiResponse :=
  match req with
  | GetHealth => healthRoute g
  | _ =>
      if auth authorization (apiToken g) then
        match req with
        | GetHealth => healthRoute g
        | GetDevices => listDevices g
        | GetDevicesByType type_param => listDevicesByType type_param g
        | GetDevice id_param => getDevice id_param g
        | PostControl id_param reqBody =>
            let '(s1, response) := controlOne id_param reqBody (session g) in
            (withSession g s1, Control response)
        | PostBatch devices =>
            let '(s1, response) := controlBatch devices (session g) in
            (withSession g s1, Control response)
        end
      else (g, Catalog 401 Unauthorized)
  end.

End ReadRoutes.

(** ** The vocabularies the code fixes *)

(** The case labels of [resolveAction]. *)
Definition actionNames : list string :=
  [ "on"; "power"; "toggle"; "brightness"; "dim"; "hue"; "saturation"; "color";
    "colorTemperature"; "ct"; "targetTemperature"; "temperature";
    "thermostatMode"; "mode"; "lock"; "speed"; "rotationSpeed";
    "position"; "targetPosition"; "tilt"; "targetTilt"; "garageDoor"; "garage" ].

(** The strings [mapType] returns. *)
Definition canonicalTypes : list string :=
  [ "lightbulb"; "switch"; "outlet"; "thermostat"; "lock"; "fan"; "blinds";
    "garage"; "motion"; "sensor"; "camera"; "other" ].

(** The last character of a string is a slash. *)
Fixpoint endsWithSlash (s : string) : bool :=
  match s with
  | EmptyString => false
  | String c EmptyString => Ascii.eqb c "/"
  | String _ s' => endsWithSlash s'
  end.

(** ** A catalog host for the examples

    The hub at "http://down" answers 503 to the read; any other base URL
    answers with a lamp, the record of the plugin itself under its default
    name, and a thermostat. *)

Definition lampService : Service :=
  {| serviceName := Some "Desk lamp";
     accessoryInformation :=
       Some {| info_Name := Some "Lamp"; info_Manufacturer := Some "Acme";
               info_Model := None |};
     humanType := Some "Lightbulb";
     type := Some "Lightbulb";
     uniqueId := Some "a1";
     serviceCharacteristics :=
       Some [ {| char_type := "On"; canWrite := true |};
              {| char_type := "Name"; canWrite := false |};
              {| char_type := "Brightness"; canWrite := true |} ];
     values := Some (VObj [("On", VBool true)]) |}.

Definition ownService : Service :=
  {| serviceName := Some "OpenClaw API"; accessoryInformation := None;
     humanType := Some "Switch"; type := Some "Switch"; uniqueId := Some "b2";
     serviceCharacteristics := None; values := None |}.

Definition thermostatService : Service :=
  {| serviceName := None;
     accessoryInformation :=
       Some {| info_Name := Some "Hall"; info_Manufacturer := None; info_Model := None |};
     humanType := None;
     type := Some "Thermostat";
     uniqueId := Some "c3";
     serviceCharacteristics := Some [ {| char_type := "TargetTemperature"; canWrite := true |} ];
     values := None |}.

Definition exampleSnapshot : RawSnapshot :=
  RawArray [ lampService; ownService; thermostatService ].

Definition exampleFetchAccessories (base authorization : string) (h : nat)
  : nat * SnapshotReply :=
  if String.eqb base "http://down"
  then (S h, SnapshotResponded false 503 None)
  else (S h, SnapshotResponded true 200 (Some exampleSnapshot)).

Definition exampleCatalogHost : @CatalogHost exampleHost :=
  @Build_CatalogHost exampleHost
    (exampleFetchAccessories
       : string -> string -> @Hub exampleHost -> @Hub exampleHost * SnapshotReply).

Definition exampleGateway : @Gateway exampleHost :=
  @Build_Gateway exampleHost "0123456789abcdef" exampleSession [].

(** A gateway whose client has nothing to authenticate with. *)
Definition lockedOutGateway : @Gateway exampleHost :=
  @Build_Gateway exampleHost "0123456789abcdef"
    (@Build_Session exampleHost
       (snd (@newUiClient exampleHost "/s" None None None emptyWorld))
       (0%nat : @Hub exampleHost) [])
    [].

(** A gateway whose client logs in with a declared username and password,
    against the hub at "http://down". *)
Definition loginGateway : @Gateway exampleHost :=
  @Build_Gateway exampleHost "0123456789abcdef"
    (@Build_Session exampleHost
       (snd (@newUiClient exampleHost "/s" (Some "http://down//") (Some "admin")
               (Some "secret") emptyWorld))
       (0%nat : @Hub exampleHost) [])
    [].

(** A storage directory where the token file cannot be written. *)
Definition readOnlyWorld : World :=
  {| env := ∅; files := ∅;
     unwritable := {[ "/var/lib/homebridge/.openclaw-token" ]};
     logged := [] |}.

(** A machine whose secrets are under the home directory, with the storage
    variable set to the empty string. *)
Definition homeWorld : World :=
  {| env := {[ "UIX_STORAGE_PATH" := "" ]};
     files := {[ "/home/pi/.homebridge/.uix-secrets" := File "0f1e2d3c" ]};
     unwritable := ∅; logged := [] |}.


(** ** A host that checks the password

    As the example host, but the login is accepted with a credential for the
    password "secret", accepted with an empty object for the password
    "legacy", and refused with 401 for any other. *)

Definition loginFetch (req : Request) (h : nat) : nat * Reply :=
  match req with
  | LoginRequest _ _ pass =>
      match pass with
      | Some "secret" =>
          (S h, Responded {| res_ok := true; res_status := 201; res_text := None;
                             res_json := Some (VObj [("access_token", VStr "credential");
                                                     ("expires_in", VNum (num 3600))]) |})
      | Some "legacy" =>
          (S h, Responded {| res_ok := true; res_status := 201; res_text := None;
                             res_json := Some (VObj []) |})
      | _ =>
          (S h, Responded {| res_ok := false; res_status := 401;
                             res_text := Some "bad credentials"; res_json := None |})
      end
  | PutCharacteristic _ _ _ _ _ => exampleFetch req h
  end.

Definition loginHost : Host :=
  {| path_resolve := fun base name => base +:+ "/" +:+ name;
     parse_secrets := fun text => Some {| secrets_secretKey := Some text |};
     parse_users := fun text => Some (UsersArray [ {| username := text; admin := true |} ]);
     NumberToString := fun _ => "0";
     StringToNumber := fun _ => NaN;
     jwt_sign := fun _ _ _ => "signed";
     Hub := nat;
     Date_now := fun _ => num 1000;
     fetch := loginFetch |}.

(** A session of that host whose client logs in with the given password. *)
Definition loginSession (pass : string) : @Session loginHost :=
  @Build_Session loginHost
    (snd (@newUiClient loginHost "/s" None (Some "admin") (Some pass) emptyWorld))
    (0%nat : @Hub loginHost) [].

(** * Properties *)

(** *** Facts about strings *)

Lemma startsWith_lower p s :
  startsWith p s = true -> startsWith (toLowerCase p) (toLowerCase s) = true.
Proof.
  revert s. induction p as [|a p IH]; intros [|b s]; simpl; try easy.
  intros H. apply andb_true_iff in H as [Hab Hps].
  apply Ascii.eqb_eq in Hab. subst b.
  rewrite Ascii.eqb_refl. simpl. now apply IH.
Qed.

Lemma includes_lower p s :
  includes p s = true -> includes (toLowerCase p) (toLowerCase s) = true.
Proof.
  induction s as [|c s IH]; simpl; intros H.
  - apply orb_true_iff in H as [H|H]; [|discriminate].
    apply startsWith_lower in H. simpl in H. now rewrite H.
  - apply orb_true_iff in H as [H|H].
    + apply startsWith_lower in H. simpl in H. now rewrite H.
    + rewrite (IH H). apply orb_true_r.
Qed.

(** A label that contains a lower-case pattern still contains it once the
    label is lowered. *)
Lemma includes_lower_fixed p s :
  toLowerCase p = p -> includes p s = true -> includes p (toLowerCase s) = true.
Proof. intros Hp H. rewrite <- Hp. now apply includes_lower. Qed.

(** C7. [mapType] is a total function that agrees, on every label, with the
    ordered first-match-wins table of the specification applied to the
    lowered label; and every label that contains both "light" and "switch"
    (in any letter case) classifies as lightbulb. *)
Theorem mapType_first_match :
  forall label : string,
    mapType (Some label) = first_match classification_table (toLowerCase label)
    /\ (includes "light" (toLowerCase label) = true ->
        includes "switch" (toLowerCase label) = true ->
        mapType (Some label) = "lightbulb")
    /\ (includes "light" label = true ->
        includes "switch" label = true ->
        mapType (Some label) = "lightbulb").
Proof.
  intros label.
  assert (Hor : toLowerCase (or_str (Some label) "") = toLowerCase label).
  { destruct label; reflexivity. }
  assert (Hlow : includes "light" (toLowerCase label) = true ->
                 mapType (Some label) = "lightbulb").
  { intros H. unfold mapType. rewrite Hor, H. reflexivity. }
  split; [|split].
  - unfold mapType. rewrite Hor.
    unfold classification_table, first_match, existsb.
    rewrite ?orb_false_r, ?orb_assoc. reflexivity.
  - intros H _. now apply Hlow.
  - intros H _. apply Hlow. now apply includes_lower_fixed.
Qed.

Lemma mapType_first_match_witness :
  mapType (Some "Light Switch") = "lightbulb".
Proof.
  apply (proj1 (proj2 (mapType_first_match "Light Switch"))); reflexivity.
Defined.

(** *** SHA-256 and HMAC-SHA256 against published vectors *)

Example sha256_abc :
  digest_hex (sha256 (utf8 "abc"))
  = "ba7816bf8f01cfea414140de5dae2223b00361a396177a9cb410ff61f20015ad".
Proof. vm_compute. reflexivity. Qed.

Example sha256_empty :
  digest_hex (sha256 [])
  = "e3b0c44298fc1c149afbf4c8996fb92427ae41e4649b934ca495991b7852b855".
Proof. vm_compute. reflexivity. Qed.

(** A key longer than one block is hashed first. *)
Example hmac_sha256_long_key :
  digest_hex (hmac_sha256 (repeat 107 100) (utf8 "openclaw-hb-api-token"))
  = "6941fab348f93e0e01e3fdc290334a3f6c9b3a5a6d5be7bb45435a9479aa0da0".
Proof. vm_compute. reflexivity. Qed.

(** The token generated from the default seed. *)
Example generateToken_default_seed :
  generateToken "openclaw-default-seed"
  = "92ea75131ed5300f01a329ea9c51e40aa28451f5134d4c13".
Proof. vm_compute. reflexivity. Qed.

(** *** The shape of a generated token *)

Lemma hex_digit_is_hex n : is_hex_char (hex_digit n) = true.
Proof. do 16 (destruct n as [|n]; [reflexivity|]). reflexivity. Qed.

Lemma hex_char_not_space c : is_hex_char c = true -> is_white_space c = false.
Proof.
  destruct c as [[] [] [] [] [] [] [] []]; vm_compute; congruence.
Qed.

Lemma generateToken_length key : strlen (generateToken key) = 48%nat.
Proof.
  unfold generateToken. generalize (hmac_sha256 (utf8 key) (utf8 "openclaw-hb-api-token")).
  intros st. reflexivity.
Qed.

Lemma generateToken_hex key : string_forall is_hex_char (generateToken key) = true.
Proof.
  unfold generateToken. generalize (hmac_sha256 (utf8 key) (utf8 "openclaw-hb-api-token")).
  intros st. unfold slice0, digest_hex, hex_word, nibble.
  cbn [String.substring string_forall].
  rewrite !hex_digit_is_hex. reflexivity.
Qed.

Lemma trimStart_no_space s :
  string_forall (fun c => negb (is_white_space c)) s = true -> trimStart s = s.
Proof.
  destruct s as [|c s]; simpl; [reflexivity|].
  intros H. apply andb_true_iff in H as [Hc _].
  apply negb_true_iff in Hc. now rewrite Hc.
Qed.

Lemma trimEnd_line s :
  string_forall (fun c => negb (is_white_space c)) s = true ->
  trimEnd (s +:+ String "010"%char "") = s.
Proof.
  induction s as [|c s IH]; simpl; [reflexivity|].
  intros H. apply andb_true_iff in H as [Hc Hs].
  apply negb_true_iff in Hc. rewrite (IH Hs), Hc.
  destruct s; reflexivity.
Qed.

Lemma string_forall_impl (p q : ascii -> bool) s :
  (forall c, p c = true -> q c = true) ->
  string_forall p s = true -> string_forall q s = true.
Proof.
  intros Hpq. induction s as [|c s IH]; simpl; [reflexivity|].
  intros H. apply andb_true_iff in H as [Hc Hs].
  now rewrite (Hpq c Hc), (IH Hs).
Qed.

Lemma string_forall_append p s t :
  string_forall p (s +:+ t) = string_forall p s && string_forall p t.
Proof.
  induction s as [|c s IH]; simpl; [reflexivity|].
  now rewrite IH, andb_assoc.
Qed.

(** Trimming a line made of hexadecimal digits gives the digits back. *)
Lemma trim_hex_line s :
  string_forall is_hex_char s = true ->
  trim (s +:+ String "010"%char "") = s.
Proof.
  intros Hhex.
  assert (Hns : string_forall (fun c => negb (is_white_space c)) s = true).
  { revert Hhex. apply string_forall_impl. intros c Hc.
    now rewrite (hex_char_not_space c Hc). }
  unfold trim. destruct s as [|c s].
  - reflexivity.
  - simpl in Hns. apply andb_true_iff in Hns as [Hc Hs].
    apply negb_true_iff in Hc.
    change ((String c s) +:+ String "010"%char "") with (String c (s +:+ String "010"%char "")).
    cbn [trimStart]. rewrite Hc.
    change (String c (s +:+ String "010"%char "")) with ((String c s) +:+ String "010"%char "").
    apply trimEnd_line. simpl. now rewrite Hc, Hs.
Qed.

(** *** The layers of [resolveApiToken] *)

Lemma log_event_env lvl ev w : env (log_event lvl ev w) = env w.
Proof. reflexivity. Qed.

Lemma log_event_files lvl ev w : files (log_event lvl ev w) = files w.
Proof. reflexivity. Qed.

Section TokenResolution.
Context `{Host}.

(** The function, layer by layer, in terms of the sources. *)
Lemma resolveApiToken_layers config storagePath w :
  resolveApiToken config storagePath w =
  match envSource w with
  | Some e => (log_event LInfo TokenFromEnv w, {| token := e; source := "env" |})
  | None =>
      match fileSource storagePath w with
      | Some t =>
          (log_event LInfo (TokenFromFile (path_resolve storagePath TOKEN_FILE_NAME)) w,
           {| token := t; source := "file" |})
      | None =>
          match configSource config with
          | Some t => (log_event LInfo TokenFromConfig w, {| token := t; source := "config" |})
          | None =>
              autoGenerate storagePath (path_resolve storagePath TOKEN_FILE_NAME) w
          end
      end
  end.
Proof.
  unfold resolveApiToken, envSource, fileSource, configSource, existsSync, readFileSync.
  destruct (env w !! TOKEN_ENV_VAR) as [e|]; [destruct (str_truthy e); [reflexivity|]|].
  all: destruct (files w !! path_resolve storagePath TOKEN_FILE_NAME) as [[|content]|].
  all: try destruct (16 <=? strlen (trim content))%nat; try reflexivity.
  all: destruct (config_token config) as [t|]; try reflexivity.
  all: destruct t as [|c t]; try reflexivity.
  all: cbn [str_truthy andb]; destruct (8 <=? strlen (String c t))%nat; reflexivity.
Qed.

Lemma autoGenerate_token storagePath path w :
  snd (autoGenerate storagePath path w)
  = {| token := generateToken (tokenSeed storagePath w); source := "auto" |}.
Proof. reflexivity. Qed.

(** C1. Token resolution never fails and takes the first source that offers
    a token, in the order environment value (set and non-empty), persisted
    file (readable, trimmed content of length at least 16), declared config
    value (length at least 8), generated token; the result carries the
    provenance tag of the layer that supplied it, so a higher-priority
    source wins whenever several are present; and the generated token is
    the first 48 hexadecimal digits of an HMAC-SHA256. *)
Theorem resolveApiToken_priority :
  forall (config : Config) (storagePath : string) (w : World),
    let generated := generateToken (tokenSeed storagePath w) in
    snd (resolveApiToken config storagePath w)
    = firstSource
        [ (envSource w, "env");
          (fileSource storagePath w, "file");
          (configSource config, "config") ]
        {| token := generated; source := "auto" |}
    /\ generated
       = slice0 48 (digest_hex (hmac_sha256 (utf8 (tokenSeed storagePath w))
                                            (utf8 "openclaw-hb-api-token")))
    /\ strlen generated = 48%nat
    /\ string_forall is_hex_char generated = true.
Proof.
  intros config storagePath w generated. split; [|split; [|split]].
  - rewrite resolveApiToken_layers. cbn [firstSource].
    destruct (envSource w); [reflexivity|].
    destruct (fileSource storagePath w); [reflexivity|].
    destruct (configSource config); [reflexivity|].
    apply autoGenerate_token.
  - reflexivity.
  - apply generateToken_length.
  - apply generateToken_hex.
Qed.

End TokenResolution.

(** *** Persisting the generated token and reading it back *)

Lemma writeFileSync_files w path data w' :
  writeFileSync w path data = Some w' ->
  files w' = <[path := File data]> (files w) /\ env w' = env w.
Proof.
  unfold writeFileSync. case_bool_decide; [discriminate|].
  destruct (files w !! path) as [[|old]|]; intros Hw; inversion Hw; subst; auto.
Qed.

Section TokenRoundTrip.
Context `{Host}.

Lemma autoGenerate_world storagePath path w w1 :
  writeFileSync w path (generateToken (tokenSeed storagePath w) +:+ String "010"%char "")
  = Some w1 ->
  files (fst (autoGenerate storagePath path w)) = files w1
  /\ env (fst (autoGenerate storagePath path w)) = env w1.
Proof.
  intros Hw. unfold autoGenerate. rewrite Hw. split; reflexivity.
Qed.

(** C5. When the environment, the token file and the configuration offer
    nothing and the generated token is written to the token file, the
    resolution returns the generated token with source auto, and a second
    resolution on the resulting storage, with the environment still unset
    and whatever the configuration, returns exactly the same token with
    source file. *)
Theorem generated_token_round_trip :
  forall (config config' : Config) (storagePath : string) (w : World),
    envSource w = None ->
    fileSource storagePath w = None ->
    configSource config = None ->
    writeFileSync w (path_resolve storagePath TOKEN_FILE_NAME)
      (generateToken (tokenSeed storagePath w) +:+ String "010"%char "") <> None ->
    source (snd (resolveApiToken config storagePath w)) = "auto"
    /\ envSource (fst (resolveApiToken config storagePath w)) = None
    /\ readFileSync (fst (resolveApiToken config storagePath w))
         (path_resolve storagePath TOKEN_FILE_NAME)
       = Some (token (snd (resolveApiToken config storagePath w)) +:+ String "010"%char "")
    /\ snd (resolveApiToken config' storagePath (fst (resolveApiToken config storagePath w)))
       = {| token := token (snd (resolveApiToken config storagePath w));
            source := "file" |}.
Proof.
  intros config config' storagePath w Henv Hfile Hconfig Hwrite.
  set (path := path_resolve storagePath TOKEN_FILE_NAME) in *.
  set (generated := generateToken (tokenSeed storagePath w)) in *.
  assert (Hfirst : resolveApiToken config storagePath w
                   = autoGenerate storagePath path w).
  { rewrite resolveApiToken_layers, Henv, Hfile, Hconfig. reflexivity. }
  rewrite Hfirst.
  destruct (writeFileSync w path (generated +:+ String "010"%char "")) as [w1|] eqn:Hw;
    [clear Hwrite|congruence].
  destruct (autoGenerate_world storagePath path w w1 Hw) as [Hfiles Henv1].
  destruct (writeFileSync_files _ _ _ _ Hw) as [Hfiles1 Henv2].
  assert (Hread : readFileSync (fst (autoGenerate storagePath path w)) path
                  = Some (generated +:+ String "010"%char "")).
  { unfold readFileSync. rewrite Hfiles, Hfiles1, lookup_insert_eq. reflexivity. }
  assert (Henv' : envSource (fst (autoGenerate storagePath path w)) = None).
  { unfold envSource in *. rewrite Henv1, Henv2. exact Henv. }
  rewrite autoGenerate_token. cbn [token source].
  repeat split; try assumption.
  rewrite resolveApiToken_layers, Henv'.
  unfold fileSource. fold path. rewrite Hread.
  rewrite (trim_hex_line generated (generateToken_hex _)).
  unfold generated. rewrite generateToken_length. reflexivity.
Qed.

End TokenRoundTrip.

Lemma generated_token_round_trip_witness :
  snd (@resolveApiToken exampleHost noConfig "/var/lib/homebridge"
         (fst (@resolveApiToken exampleHost noConfig "/var/lib/homebridge" emptyWorld)))
  = {| token := token (snd (@resolveApiToken exampleHost noConfig "/var/lib/homebridge"
                              emptyWorld));
       source := "file" |}.
Proof.
  apply (@generated_token_round_trip exampleHost noConfig noConfig
           "/var/lib/homebridge" emptyWorld);
    try reflexivity.
  vm_compute. discriminate.
Defined.


(** The round trip on a fresh storage directory, evaluated. *)
Example round_trip_fresh_storage :
  let first := @resolveApiToken exampleHost noConfig "/var/lib/homebridge" emptyWorld in
  let second := @resolveApiToken exampleHost noConfig "/var/lib/homebridge" (fst first) in
  snd first = {| token := "92ea75131ed5300f01a329ea9c51e40aa28451f5134d4c13";
                 source := "auto" |}
  /\ snd second = {| token := "92ea75131ed5300f01a329ea9c51e40aa28451f5134d4c13";
                     source := "file" |}.
Proof. vm_compute. split; reflexivity. Qed.

(** When the token file cannot be written the token is still returned, and
    the next resolution generates it again. *)
Example round_trip_unwritable_storage :
  let w := {| env := ∅; files := ∅;
              unwritable := {[ "/var/lib/homebridge/.openclaw-token" ]};
              logged := [] |} in
  let first := @resolveApiToken exampleHost noConfig "/var/lib/homebridge" w in
  let second := @resolveApiToken exampleHost noConfig "/var/lib/homebridge" (fst first) in
  source (snd first) = "auto" /\ source (snd second) = "auto"
  /\ token (snd first) = token (snd second).
Proof. vm_compute. repeat split; reflexivity. Qed.

(** Every single source alone, and the precedence among several. *)
Example resolve_env_wins :
  let w := {| env := {[ TOKEN_ENV_VAR := "x" ]};
              files := {[ "/s/.openclaw-token" := File "0123456789abcdef0123" ]};
              unwritable := ∅; logged := [] |} in
  snd (@resolveApiToken exampleHost
         {| config_token := Some "configured"; homebridgeUiUrl := None;
            homebridgeUiUser := None; homebridgeUiPass := None |} "/s" w)
  = {| token := "x"; source := "env" |}.
Proof. vm_compute. reflexivity. Qed.

Example resolve_file_over_config :
  let w := {| env := ∅;
              files := {[ "/s/.openclaw-token" := File "  0123456789abcdef  " ]};
              unwritable := ∅; logged := [] |} in
  snd (@resolveApiToken exampleHost
         {| config_token := Some "configured"; homebridgeUiUrl := None;
            homebridgeUiUser := None; homebridgeUiPass := None |} "/s" w)
  = {| token := "0123456789abcdef"; source := "file" |}.
Proof. vm_compute. reflexivity. Qed.

Example resolve_short_file_falls_to_config :
  let w := {| env := {[ TOKEN_ENV_VAR := "" ]};
              files := {[ "/s/.openclaw-token" := File "short" ]};
              unwritable := ∅; logged := [] |} in
  snd (@resolveApiToken exampleHost
         {| config_token := Some "configured"; homebridgeUiUrl := None;
            homebridgeUiUser := None; homebridgeUiPass := None |} "/s" w)
  = {| token := "configured"; source := "config" |}.
Proof. vm_compute. reflexivity. Qed.

(** *** The outbound auth mode *)

Lemma str_truthy_true s : str_truthy s = true <-> s <> "".
Proof. destruct s; simpl; split; congruence. Qed.

Lemma opt_truthy_true o : opt_truthy o = true <-> exists s, o = Some s /\ s <> "".
Proof.
  destruct o as [s|]; simpl.
  - rewrite str_truthy_true. split.
    + intros Hs. exists s. auto.
    + intros (s' & Heq & Hs). congruence.
  - split; [discriminate|]. intros (s & Heq & _). discriminate.
Qed.

Lemma or_null_truthy o : opt_truthy (or_null o) = opt_truthy o.
Proof. unfold or_null. destruct (opt_truthy o) eqn:Ho; [exact Ho|reflexivity]. Qed.

Lemma CredentialsDeclared_truthy user pass :
  CredentialsDeclared user pass
  <-> opt_truthy (or_null user) && opt_truthy (or_null pass) = true.
Proof.
  unfold CredentialsDeclared. rewrite !or_null_truthy, andb_true_iff.
  now rewrite !opt_truthy_true.
Qed.

Section AuthMode.
Context `{Host}.

Lemma SecretKeyAvailable_read storagePath w :
  SecretKeyAvailable storagePath w
  <-> opt_truthy (fst (readSecretKey storagePath w)) = true.
Proof.
  unfold SecretKeyAvailable, readSecretKey. split.
  - intros (text & doc & key & -> & -> & -> & Hkey).
    apply str_truthy_true in Hkey. rewrite Hkey. simpl. exact Hkey.
  - destruct (readFileSync w _) as [text|] eqn:Hread; [|discriminate].
    destruct (parse_secrets text) as [doc|] eqn:Hparse; [|discriminate].
    destruct (secrets_secretKey doc) as [key|] eqn:Hdoc; [|discriminate].
    destruct (str_truthy key) eqn:Hkey; [|discriminate].
    intros _. exists text, doc, key.
    split; [reflexivity|]. split; [exact Hparse|]. split; [exact Hdoc|].
    now apply str_truthy_true.
Qed.

Lemma AdminUserAvailable_read storagePath w :
  AdminUserAvailable storagePath w
  <-> opt_truthy (readAdminUser storagePath w) = true.
Proof.
  unfold AdminUserAvailable, readAdminUser. split.
  - intros (text & users & u & -> & -> & -> & Hname).
    simpl. now apply str_truthy_true.
  - destruct (readFileSync w _) as [text|] eqn:Hread; [|discriminate].
    destruct (parse_users text) as [[users|]|] eqn:Hparse; try discriminate.
    destruct (find _ users) as [u|] eqn:Hfind; [|discriminate].
    simpl. intros Hname. exists text, users, u.
    split; [reflexivity|]. split; [exact Hparse|]. split; [exact Hfind|].
    now apply str_truthy_true.
Qed.

(** The mode the constructor leaves in the client. *)
Lemma newUiClient_authMode path uiUrl user pass w :
  authMode (snd (newUiClient path uiUrl user pass w))
  = if opt_truthy (fst (readSecretKey path w)) && opt_truthy (readAdminUser path w)
    then ModeJwtDirect
    else if opt_truthy (or_null user) && opt_truthy (or_null pass)
         then ModeLogin
         else ModeNone.
Proof.
  unfold newUiClient, detectAuthMode. cbn [storagePath].
  destruct (readSecretKey path w) as [key instance]. cbn.
  destruct (opt_truthy key && opt_truthy (readAdminUser path w)); [reflexivity|].
  destruct (opt_truthy (or_null user) && opt_truthy (or_null pass)); reflexivity.
Qed.

Lemma loginAuth_authMode s :
  authMode (client (fst (loginAuth s))) = authMode (client s).
Proof.
  unfold loginAuth, doFetch.
  destruct (fetch _ (hub s)) as [hub1 [reason|res]]; [reflexivity|].
  destruct (res_ok res); [|reflexivity].
  cbn [negb].
  destruct (res_json res) as [[]|]; reflexivity.
Qed.

Lemma clientToken_authMode s :
  authMode (client (fst (clientToken s))) = authMode (client s).
Proof.
  unfold clientToken.
  destruct (authMode (client s)) eqn:Hmode; [| |exact Hmode].
  - destruct (credentialStale s); cbn; exact Hmode.
  - destruct (credentialStale s); [|exact Hmode].
    pose proof (loginAuth_authMode s) as Hlogin.
    destruct (loginAuth s) as [s1 [u|e]]; cbn in *; congruence.
Qed.

Lemma setCharacteristic_authMode uniqueId ctype v s :
  authMode (client (fst (setCharacteristic uniqueId ctype v s))) = authMode (client s).
Proof.
  unfold setCharacteristic.
  pose proof (clientToken_authMode s) as Htoken.
  destruct (clientToken s) as [s1 [tok|e]]; [|exact Htoken].
  unfold doFetch.
  destruct (fetch _ (hub s1)) as [hub2 [reason|res]]; [exact Htoken|].
  destruct (res_ok res); [|exact Htoken].
  cbn [negb]. destruct (res_json res); exact Htoken.
Qed.

Lemma clientToken_none s :
  authMode (client s) = ModeNone -> clientToken s = (s, Throw NoAuthMethod).
Proof. intros Hmode. unfold clientToken. now rewrite Hmode. Qed.

(** C2. The constructor of the client fixes the auth mode: jwt-direct when
    a shared secret key and an administrator username are both readable
    from the secret material, whatever username and password the
    configuration declares; otherwise login when a username and a password
    are both declared; otherwise none. No later call changes the mode, and
    in mode none every [token()] call throws (and so does every write,
    before anything is sent). *)
Theorem auth_mode_selection :
  forall (path : string) (uiUrl user pass : option string) (w : World),
    (SecretKeyAvailable path w -> AdminUserAvailable path w ->
     authMode (snd (newUiClient path uiUrl user pass w)) = ModeJwtDirect)
    /\ (~ (SecretKeyAvailable path w /\ AdminUserAvailable path w) ->
        CredentialsDeclared user pass ->
        authMode (snd (newUiClient path uiUrl user pass w)) = ModeLogin)
    /\ (~ (SecretKeyAvailable path w /\ AdminUserAvailable path w) ->
        ~ CredentialsDeclared user pass ->
        authMode (snd (newUiClient path uiUrl user pass w)) = ModeNone)
    /\ (forall s : Session,
          authMode (client (fst (clientToken s))) = authMode (client s))
    /\ (forall (s : Session) (uniqueId : JSValue) (ctype : string) (v : JSValue),
          authMode (client (fst (setCharacteristic uniqueId ctype v s)))
          = authMode (client s))
    /\ (forall s : Session,
          authMode (client s) = ModeNone ->
          clientToken s = (s, Throw NoAuthMethod))
    /\ (forall (s : Session) (uniqueId : JSValue) (ctype : string) (v : JSValue),
          authMode (client s) = ModeNone ->
          setCharacteristic uniqueId ctype v s = (s, Throw NoAuthMethod)).
Proof.
  intros path uiUrl user pass w.
  rewrite SecretKeyAvailable_read, AdminUserAvailable_read, CredentialsDeclared_truthy.
  rewrite newUiClient_authMode.
  destruct (opt_truthy (fst (readSecretKey path w))),
           (opt_truthy (readAdminUser path w)),
           (opt_truthy (or_null user) && opt_truthy (or_null pass));
    cbn [andb]; repeat split; try congruence; try tauto;
    auto using clientToken_authMode, setCharacteristic_authMode, clientToken_none.
  all: intros s uniqueId ctype v Hmode; unfold setCharacteristic;
    now rewrite (clientToken_none s Hmode).
Qed.

End AuthMode.

Lemma auth_mode_selection_witness :
  authMode (snd (@newUiClient exampleHost "/s" None (Some "admin") (Some "secret")
                   secretsWorld))
  = ModeJwtDirect.
Proof.
  apply (proj1 (@auth_mode_selection exampleHost "/s" None (Some "admin") (Some "secret")
                  secretsWorld)).
  - exists "0f1e2d3c", {| secrets_secretKey := Some "0f1e2d3c" |}, "0f1e2d3c".
    repeat split; try reflexivity; discriminate.
  - exists "admin", [ {| username := "admin"; admin := true |} ],
           {| username := "admin"; admin := true |}.
    repeat split; try reflexivity; discriminate.
Defined.

(** The three modes, evaluated. *)
Example auth_mode_login_fallback :
  authMode (snd (@newUiClient exampleHost "/s" None (Some "admin") (Some "secret")
                   emptyWorld))
  = ModeLogin.
Proof. vm_compute. reflexivity. Qed.

Example auth_mode_none_without_password :
  authMode (snd (@newUiClient exampleHost "/s" None (Some "admin") None emptyWorld))
  = ModeNone.
Proof. vm_compute. reflexivity. Qed.

(** *** The order on numbers *)

Lemma SFcompare_antisym a b :
  SFcompare b a = option_map CompOpp (SFcompare a b).
Proof.
  destruct a as [sa|sa| |sa ma ea], b as [sb|sb| |sb mb eb]; simpl;
    try reflexivity; try (destruct sa; reflexivity); try (destruct sb; reflexivity);
    try (destruct sa, sb; reflexivity).
  all: destruct sa, sb; simpl; try reflexivity;
    rewrite (Z.compare_antisym ea eb); destruct (ea ?= eb); simpl; try reflexivity;
    rewrite (Pos.compare_cont_antisym ma mb Eq); simpl; try reflexivity;
    destruct (Pos.compare_cont Eq ma mb); reflexivity.
Qed.

Lemma SFcompare_refl a : is_nan a = false -> SFcompare a a = Some Eq.
Proof.
  destruct a as [s|s| |s m e]; simpl; intros Hn; try congruence.
  - destruct s; reflexivity.
  - rewrite Z.compare_refl, Pos.compare_cont_refl. destruct s; reflexivity.
Qed.

Lemma SFcompare_lt_trans a b c :
  SFcompare a b = Some Lt -> SFcompare b c = Some Lt -> SFcompare a c = Some Lt.
Proof.
  destruct a as [sa|sa| |sa ma ea], b as [sb|sb| |sb mb eb], c as [sc|sc| |sc mc ec];
    simpl; try discriminate;
    try (destruct sa; try discriminate); try (destruct sb; try discriminate);
    try (destruct sc; try discriminate); try reflexivity;
    fold (Pos.compare ma mb); fold (Pos.compare mb mc); fold (Pos.compare ma mc);
    destruct (Z.compare_spec ea eb), (Z.compare_spec eb ec), (Z.compare_spec ea ec);
    try discriminate; try reflexivity; try lia;
    destruct (Pos.compare_spec ma mb), (Pos.compare_spec mb mc), (Pos.compare_spec ma mc);
    simpl; try discriminate; try reflexivity; try lia.
Qed.

Lemma SFcompare_none a b :
  SFcompare a b = None -> is_nan a = true \/ is_nan b = true.
Proof.
  destruct a as [sa|sa| |sa ma ea], b as [sb|sb| |sb mb eb]; simpl;
    try discriminate; auto.
Qed.

Lemma SFcompare_some_not_nan a b c :
  SFcompare a b = Some c -> is_nan a = false /\ is_nan b = false.
Proof.
  destruct a as [sa|sa| |sa ma ea], b as [sb|sb| |sb mb eb]; simpl;
    try discriminate; auto.
Qed.

Lemma SFcompare_gt_lt a b : SFcompare a b = Some Gt -> SFcompare b a = Some Lt.
Proof. intros Hab. now rewrite SFcompare_antisym, Hab. Qed.

Lemma SFcompare_lt_gt a b : SFcompare a b = Some Lt -> SFcompare b a = Some Gt.
Proof. intros Hab. now rewrite SFcompare_antisym, Hab. Qed.

Lemma SFcompare_eq_sym a b : SFcompare a b = Some Eq -> SFcompare b a = Some Eq.
Proof. intros Hab. now rewrite SFcompare_antisym, Hab. Qed.

(** *** Clamping *)

(** [Math.max(lo, Math.min(hi, n))] for bounds [lo < hi] other than the two
    zeros whose sign would show, and [n] any number but NaN: the result lies
    within the bounds, is the bound that [n] exceeds, and equals [n] when
    [n] is already within. *)
Lemma clamp_within (lo hi n : number) :
  SFcompare lo hi = Some Lt ->
  lo <> S754_zero true ->
  hi <> S754_zero false ->
  is_nan n = false ->
  SFleb lo (Math_max lo (Math_min hi n)) = true
  /\ SFleb (Math_max lo (Math_min hi n)) hi = true
  /\ (SFltb hi n = true -> Math_max lo (Math_min hi n) = hi)
  /\ (SFltb n lo = true -> Math_max lo (Math_min hi n) = lo)
  /\ (SFleb lo n = true -> SFleb n hi = true ->
      SFcompare (Math_max lo (Math_min hi n)) n = Some Eq).
Proof.
  intros Hlohi Hlo Hhi Hn.
  destruct (SFcompare_some_not_nan _ _ _ Hlohi) as [Hnlo Hnhi].
  assert (Hmaxhi : Math_max lo hi = hi) by (unfold Math_max; now rewrite Hlohi).
  assert (Hlelohi : SFleb lo hi = true) by (unfold SFleb; now rewrite Hlohi).
  assert (Hlehh : SFleb hi hi = true) by (unfold SFleb; now rewrite SFcompare_refl).
  assert (Hlell : SFleb lo lo = true) by (unfold SFleb; now rewrite SFcompare_refl).
  unfold SFltb, SFleb.
  destruct (SFcompare hi n) as [[| |]|] eqn:Hhn.
  - (* hi = n *)
    assert (Hmin : Math_min hi n = hi).
    { unfold Math_min. rewrite Hhn. destruct hi as [[]| | |]; congruence. }
    rewrite Hmin, Hmaxhi, Hlohi, (SFcompare_refl hi Hnhi), Hhn.
    rewrite (SFcompare_eq_sym _ _ Hhn).
    repeat split; try discriminate; auto.
    intros Hnlo'. destruct (SFcompare n lo) as [[]|] eqn:Hnl; try discriminate.
    pose proof (SFcompare_lt_trans _ _ _ Hnl Hlohi) as Hnh.
    rewrite (SFcompare_eq_sym _ _ Hhn) in Hnh. discriminate.
  - (* hi < n *)
    assert (Hmin : Math_min hi n = hi) by (unfold Math_min; now rewrite Hhn).
    rewrite Hmin, Hmaxhi, Hlohi, (SFcompare_refl hi Hnhi), Hhn.
    rewrite (SFcompare_lt_gt _ _ Hhn).
    repeat split; try discriminate; auto.
    intros Hnlo'. destruct (SFcompare n lo) as [[]|] eqn:Hnl; try discriminate.
    pose proof (SFcompare_lt_trans _ _ _ Hnl Hlohi) as Hnh.
    rewrite (SFcompare_lt_gt _ _ Hhn) in Hnh. discriminate.
  - (* n < hi *)
    assert (Hmin : Math_min hi n = n) by (unfold Math_min; now rewrite Hhn).
    pose proof (SFcompare_gt_lt _ _ Hhn) as Hnh.
    rewrite Hmin. unfold Math_max.
    destruct (SFcompare lo n) as [[| |]|] eqn:Hln.
    + (* lo = n *)
      assert (Hsel : match lo with S754_zero true => n | _ => lo end = lo).
      { destruct lo as [[]| | |]; congruence. }
      rewrite Hsel, (SFcompare_refl lo Hnlo), Hlohi, Hln, (SFcompare_eq_sym _ _ Hln).
      repeat split; try discriminate; auto.
    + (* lo < n *)
      rewrite Hln, Hnh, (SFcompare_refl n Hn), (SFcompare_lt_gt _ _ Hln).
      repeat split; try discriminate; auto.
    + (* n < lo *)
      rewrite (SFcompare_refl lo Hnlo), Hlohi, Hln, (SFcompare_gt_lt _ _ Hln).
      repeat split; try discriminate; auto.
    + destruct (SFcompare_none _ _ Hln); congruence.
  - destruct (SFcompare_none _ _ Hhn); congruence.
Qed.

(** *** Action resolution *)

Section Actions.
Context `{Host}.

Lemma resolveAction_range action ctype lo hi v :
  In (action, (ctype, (lo, hi))) rangeActions ->
  resolveAction (VStr action) v
  = One {| characteristicType := ctype; value := VNum (clamp v (num lo) (num hi)) |}.
Proof.
  intros Hin. simpl in Hin.
  repeat (destruct Hin as [Heq|Hin]; [inversion Heq; subst; reflexivity|]).
  contradiction.
Qed.

Lemma rangeActions_bounds action ctype lo hi :
  In (action, (ctype, (lo, hi))) rangeActions ->
  SFcompare (num lo) (num hi) = Some Lt
  /\ num lo <> S754_zero true
  /\ num hi <> S754_zero false.
Proof.
  intros Hin. simpl in Hin.
  repeat (destruct Hin as [Heq|Hin];
          [inversion Heq; subst; vm_compute; repeat split; discriminate|]).
  contradiction.
Qed.

(** C8. Every range-valued action (brightness/dim, hue, saturation,
    speed/rotationSpeed, position/targetPosition, tilt/targetTilt), on every
    numeric input (any double but NaN, which no JSON number denotes),
    resolves to one operation whose value lies within the inclusive bounds
    of the action: the upper bound when the input is above it, the lower
    bound when the input is below it, the input itself when it is within;
    the input is never rejected. Brightness 150 resolves to 100 and
    brightness -5 to 0. *)
Theorem range_actions_clamp :
  (forall (action ctype : string) (lo hi : Z) (n : number),
      In (action, (ctype, (lo, hi))) rangeActions ->
      is_nan n = false ->
      exists r : number,
        resolveAction (VStr action) (VNum n)
        = One {| characteristicType := ctype; value := VNum r |}
        /\ SFleb (num lo) r = true
        /\ SFleb r (num hi) = true
        /\ (SFltb (num hi) n = true -> r = num hi)
        /\ (SFltb n (num lo) = true -> r = num lo)
        /\ (SFleb (num lo) n = true -> SFleb n (num hi) = true ->
            SFcompare r n = Some Eq))
  /\ resolveAction (VStr "brightness") (VNum (num 150))
     = One {| characteristicType := "Brightness"; value := VNum (num 100) |}
  /\ resolveAction (VStr "brightness") (VNum (num (-5)))
     = One {| characteristicType := "Brightness"; value := VNum (num 0) |}.
Proof.
  split; [|split; reflexivity].
  intros action ctype lo hi n Hin Hn.
  exists (clamp (VNum n) (num lo) (num hi)).
  split; [now apply resolveAction_range|].
  destruct (rangeActions_bounds _ _ _ _ Hin) as (Hlohi & Hlo & Hhi).
  unfold clamp. cbn [Number].
  now apply clamp_within.
Qed.


(** C10. The action toggle resolves, for every value, to the same single
    operation as on and power: the characteristic On with the truthiness of
    the value. The resolver has no access to the state of a device. *)
Theorem toggle_resolves_as_on :
  forall v : JSValue,
    resolveAction (VStr "toggle") v = resolveAction (VStr "on") v
    /\ resolveAction (VStr "toggle") v = resolveAction (VStr "power") v
    /\ resolveAction (VStr "toggle") v
       = One {| characteristicType := "On"; value := VBool (Boolean v) |}.
Proof. intros v. repeat split. Qed.

(** An unknown action name resolves to [null], whatever the value. *)
Lemma resolveAction_dance v : resolveAction (VStr "dance") v = Null.
Proof. reflexivity. Qed.

(** A known action never resolves to [null]. *)
Lemma resolveAction_color_not_null v : resolveAction (VStr "color") v <> Null.
Proof.
  change (resolveAction (VStr "color") v) with (Many (operationsOf (resolveAction (VStr "color") v))). discriminate.
Qed.

(** The thermostat mode is looked up without regard to letter case. *)
Lemma resolveAction_thermostat_heat :
  resolveAction (VStr "thermostatMode") (VStr "Heat")
  = One {| characteristicType := "TargetHeatingCoolingState"; value := VNum (num 1) |}.
Proof. reflexivity. Qed.

End Actions.

Lemma range_actions_clamp_witness :
  exists r : number,
    @resolveAction exampleHost (VStr "tilt") (VNum (num 120))
    = One {| characteristicType := "TargetHorizontalTiltAngle"; value := VNum r |}
    /\ SFleb (num (-90)) r = true
    /\ SFleb r (num 90) = true
    /\ (SFltb (num 90) (num 120) = true -> r = num 90)
    /\ (SFltb (num 120) (num (-90)) = true -> r = num (-90))
    /\ (SFleb (num (-90)) (num 120) = true -> SFleb (num 120) (num 90) = true ->
        SFcompare r (num 120) = Some Eq).
Proof.
  apply (proj1 (@range_actions_clamp exampleHost) "tilt" "TargetHorizontalTiltAngle"
           (-90) 90 (num 120)).
  - simpl. do 8 right. left. reflexivity.
  - reflexivity.
Defined.


(** *** The catalog filter *)

Lemma parseService_app devices svc :
  parseService devices svc = devices ++ parseService [] svc.
Proof.
  unfold parseService.
  destruct (uniqueId svc) as [uid|]; [|now rewrite app_nil_r].
  destruct (negb (str_truthy uid) || _ || _); [now rewrite app_nil_r|].
  destruct (String.eqb _ _); [now rewrite app_nil_r|].
  reflexivity.
Qed.

Lemma fold_parseService services devices :
  fold_left parseService services devices
  = devices ++ flat_map (fun svc => parseService [] svc) services.
Proof.
  revert devices. induction services as [|svc services IH]; intros devices; simpl.
  - now rewrite app_nil_r.
  - rewrite IH, (parseService_app devices svc), <- app_assoc. reflexivity.
Qed.

Lemma parseService_dropped svc :
  parseService [] svc = []
  <-> LacksId svc \/ StructuralType svc
      \/ toLowerCase (serviceDisplayName svc) = "openclaw api".
Proof.
  unfold parseService, LacksId, StructuralType.
  destruct (uniqueId svc) as [uid|]; [|split; auto].
  destruct uid as [|c uid]; [split; auto|].
  cbn [str_truthy negb orb].
  destruct (String.eqb_spec (serviceTypeLabel svc) "AccessoryInformation") as [Hai|Hai];
    [split; auto|].
  destruct (String.eqb_spec (serviceTypeLabel svc) "ProtocolInformation") as [Hpi|Hpi];
    [split; auto|].
  cbn [orb].
  destruct (String.eqb_spec (toLowerCase (serviceDisplayName svc)) "openclaw api")
    as [Hname|Hname]; [split; auto|].
  split; [discriminate|].
  intros [[Hid|Hid]|[[Ht|Ht]|Hn]]; congruence.
Qed.

(** C6, as the code has it. Every record of the snapshot is kept or dropped
    on its own, and the kept ones appear in snapshot order. A record is
    dropped if and only if it lacks a stable id (none, or the empty string),
    or its type label (humanType, else type, else "Unknown") is
    AccessoryInformation or ProtocolInformation, or its display name
    lowered is the literal "openclaw api"; every other record yields one
    device carrying its id, its display name and its type label. *)
Theorem parseAccessories_filter :
  (forall services : list Service,
      parseAccessories (RawArray services)
      = flat_map (fun svc => parseAccessories (RawArray [svc])) services)
  /\ (forall svc : Service,
        parseAccessories (RawArray [svc]) = []
        <-> LacksId svc \/ StructuralType svc
            \/ toLowerCase (serviceDisplayName svc) = "openclaw api")
  /\ (forall svc : Service,
        parseAccessories (RawArray [svc]) <> [] ->
        exists d : Device,
          parseAccessories (RawArray [svc]) = [d]
          /\ uniqueId svc = Some (device_id d)
          /\ device_name d = serviceDisplayName svc
          /\ device_humanType d = serviceTypeLabel svc
          /\ device_type d = mapType (Some (serviceTypeLabel svc))).
Proof.
  split; [|split].
  - intros services. unfold parseAccessories. rewrite fold_parseService.
    reflexivity.
  - intros svc. apply parseService_dropped.
  - intros svc. unfold parseAccessories. cbn [fold_left].
    unfold parseService.
    destruct (uniqueId svc) as [uid|]; [|congruence].
    destruct (negb (str_truthy uid) || _ || _); [congruence|].
    destruct (String.eqb _ _); [congruence|].
    intros _. eexists. split; [reflexivity|]. cbn. auto.
Qed.

Lemma parseAccessories_filter_witness :
  exists d : Device,
    parseAccessories (RawArray [selfNamedService]) = [d]
    /\ uniqueId selfNamedService = Some (device_id d)
    /\ device_name d = serviceDisplayName selfNamedService
    /\ device_humanType d = serviceTypeLabel selfNamedService
    /\ device_type d = mapType (Some (serviceTypeLabel selfNamedService)).
Proof.
  apply (proj2 (proj2 parseAccessories_filter) selfNamedService).
  vm_compute. discriminate.
Defined.

(** Read with the registered name [ACCESSORY_NAME], "OpenClawAPI", in place
    of the literal, the filter sentence of the specification fails: a record
    whose display name equals that name up to letter case is kept. *)
Lemma self_named_service_kept :
  ~ (parseAccessories (RawArray [selfNamedService]) = []
     <-> LacksId selfNamedService \/ StructuralType selfNamedService
         \/ NamedLike ACCESSORY_NAME selfNamedService).
Proof.
  intros [_ Hdrop].
  assert (Hnamed : NamedLike ACCESSORY_NAME selfNamedService) by reflexivity.
  specialize (Hdrop (or_intror (or_intror Hnamed))).
  vm_compute in Hdrop. discriminate.
Qed.

(** The record the filter literal does match is one named "OpenClaw API",
    the default display name of the platform. *)
Example default_display_name_dropped :
  parseAccessories
    (RawArray [ {| serviceName := Some "OpenClaw API"; accessoryInformation := None;
                   humanType := Some "Switch"; type := Some "Switch";
                   uniqueId := Some "5f2a"; serviceCharacteristics := None;
                   values := None |} ])
  = [].
Proof. reflexivity. Qed.

(** The type label is the human-readable one when there is one: a record
    whose [type] is AccessoryInformation and whose [humanType] reads
    otherwise is kept. *)
Example human_type_label_decides :
  length (parseAccessories
    (RawArray [ {| serviceName := Some "Info"; accessoryInformation := None;
                   humanType := Some "Accessory Information";
                   type := Some "AccessoryInformation";
                   uniqueId := Some "5f2a"; serviceCharacteristics := None;
                   values := None |} ]))
  = 1%nat.
Proof. reflexivity. Qed.

(** *** What a write sends *)

Lemma writesOf_app xs ys : writesOf (xs ++ ys) = writesOf xs ++ writesOf ys.
Proof. unfold writesOf. apply flat_map_app. Qed.

Section Dispatch.
Context `{Host}.


Lemma loginAuth_sent s :
  exists extra, sent (fst (loginAuth s)) = sent s ++ extra /\ writesOf extra = [].
Proof.
  unfold loginAuth, doFetch.
  destruct (fetch _ (hub s)) as [hub1 [reason|res]]; cbn;
    [eexists; split; reflexivity|].
  destruct (res_ok res); cbn; [|eexists; split; reflexivity].
  destruct (res_json res) as [[]|]; cbn; eexists; split; reflexivity.
Qed.

Lemma clientToken_sent s :
  exists extra, sent (fst (clientToken s)) = sent s ++ extra /\ writesOf extra = [].
Proof.
  unfold clientToken.
  destruct (authMode (client s)).
  - destruct (credentialStale s); cbn; exists []; now rewrite app_nil_r.
  - destruct (credentialStale s); [|exists []; now rewrite app_nil_r].
    destruct (loginAuth_sent s) as (extra & Hsent & Hw).
    destruct (loginAuth s) as [s1 [u|e]]; cbn in *; eauto.
  - exists []. now rewrite app_nil_r.
Qed.


(** *** The loop over the operations of one device *)





(** *** The loop over the devices of a batch *)








End Dispatch.


(** A colour request on a device that refuses Saturation: Hue is written,
    Saturation fails, the answer is 502 and the Hue write stays. *)
Example controlOne_partial_write :
  let '(s', response) := @controlOne exampleHost "plain" colorRequest exampleSession in
  response = {| status := 502;
                body := ControlError (PutFailed "Saturation" 400 "no such characteristic") |}
  /\ writesOf (sent s')
     = [ ("plain", "Hue", VNum (num 10)); ("plain", "Saturation", VNum (num 80)) ].
Proof. vm_compute. split; reflexivity. Qed.

(** The same request on a device that refuses everything: the first write
    fails and Saturation is never attempted. *)
Example controlOne_abort_at_first :
  let '(s', response) := @controlOne exampleHost "broken" colorRequest exampleSession in
  status response = 502%nat
  /\ writesOf (sent s') = [ ("broken", "Hue", VNum (num 10)) ].
Proof. vm_compute. split; reflexivity. Qed.

Example controlOne_unknown_action :
  @controlOne exampleHost "lamp"
    (Some {| req_action := VStr "dance"; req_value := VBool true |}) exampleSession
  = (exampleSession, {| status := 400; body := BadRequest (UnknownAction "dance") |}).
Proof. vm_compute. reflexivity. Qed.

Example controlOne_missing_action :
  @controlOne exampleHost "lamp" None exampleSession
  = (exampleSession, {| status := 400; body := BadRequest MissingAction |}).
Proof. vm_compute. reflexivity. Qed.



(** A batch of three devices where the action of the second is unknown: the
    first and the third are written, the results follow the input order and
    nothing is sent for the second. *)
Example controlBatch_second_unknown :
  let '(s', response) :=
    @controlBatch exampleHost
      (Some [ turnOn "lamp";
              {| item_id := VStr "fan"; item_action := VStr "dance";
                 item_value := VBool true |};
              turnOn "desk" ])
      exampleSession in
  response
  = {| status := 200;
       body := BatchDone
         [ {| result_id := VStr "lamp"; success := true; error := None |};
           {| result_id := VStr "fan"; success := false;
              error := Some (UnknownAction "dance") |};
           {| result_id := VStr "desk"; success := true; error := None |} ] |}
  /\ writesOf (sent s')
     = [ ("lamp", "On", VBool true); ("desk", "On", VBool true) ].
Proof. vm_compute. split; reflexivity. Qed.

(** A device that fails does not stop the ones after it. *)
Example controlBatch_failure_isolated :
  let '(s', response) :=
    @controlBatch exampleHost (Some [ turnOn "broken"; turnOn "desk" ]) exampleSession in
  response
  = {| status := 200;
       body := BatchDone
         [ {| result_id := VStr "broken"; success := false;
              error := Some (PutFailed "On" 500 "no such device") |};
           {| result_id := VStr "desk"; success := true; error := None |} ] |}
  /\ writesOf (sent s')
     = [ ("broken", "On", VBool true); ("desk", "On", VBool true) ].
Proof. vm_compute. split; reflexivity. Qed.

(** A colour request without sub-fields resolves to no operation at all,
    which is not the unresolved case: the answer is 200 with no result, and
    nothing is sent. *)
Example controlOne_empty_color :
  @controlOne exampleHost "lamp"
    (Some {| req_action := VStr "color"; req_value := VObj [] |}) exampleSession
  = (exampleSession,
     {| status := 200; body := ControlDone "lamp" (VStr "color") [] |}).
Proof. vm_compute. reflexivity. Qed.

(** * Further properties *)

(** *** Trimming *)

Lemma trimEnd_idempotent s : trimEnd (trimEnd s) = trimEnd s.
Proof.
  induction s as [|c s IH]; [reflexivity|].
  cbn [trimEnd]. destruct (trimEnd s) as [|d t] eqn:Hend.
  - destruct (is_white_space c) eqn:Hc; [reflexivity|].
    cbn [trimEnd]. now rewrite Hc.
  - cbn [trimEnd] in *. now rewrite IH.
Qed.

Lemma trimEnd_keeps_head c s :
  is_white_space c = false -> exists t, trimEnd (String c s) = String c t.
Proof.
  intros Hc. cbn [trimEnd]. destruct (trimEnd s) as [|d t].
  - rewrite Hc. eauto.
  - eauto.
Qed.

Lemma trimStart_head s :
  trimStart s = "" \/ exists c t, trimStart s = String c t /\ is_white_space c = false.
Proof.
  induction s as [|c s IH]; [now left|].
  cbn [trimStart]. destruct (is_white_space c) eqn:Hc; [exact IH|].
  right. eauto.
Qed.

Lemma trim_idempotent s : trim (trim s) = trim s.
Proof.
  unfold trim. destruct (trimStart_head s) as [Hempty|(c & t & Hhead & Hc)].
  - rewrite Hempty. reflexivity.
  - rewrite Hhead. destruct (trimEnd_keeps_head c t Hc) as [t' Ht'].
    rewrite Ht'. cbn [trimStart]. rewrite Hc, <- Ht'. apply trimEnd_idempotent.
Qed.

(** *** What a resolution leaves behind *)

Lemma writeFileSync_frame w path data w' :
  writeFileSync w path data = Some w' ->
  env w' = env w /\ unwritable w' = unwritable w /\ logged w' = logged w
  /\ files w' = <[path := File data]> (files w).
Proof.
  unfold writeFileSync. case_bool_decide; [discriminate|].
  destruct (files w !! path) as [[|old]|]; intros Hw; inversion Hw; subst; auto.
Qed.

Section TokenFootprint.
Context `{Host}.

Lemma autoGenerate_frame storagePath path w :
  env (fst (autoGenerate storagePath path w)) = env w
  /\ unwritable (fst (autoGenerate storagePath path w)) = unwritable w
  /\ (forall p, p <> path ->
      files (fst (autoGenerate storagePath path w)) !! p = files w !! p)
  /\ exists events,
       logged (fst (autoGenerate storagePath path w)) = logged w ++ events.
Proof.
  unfold autoGenerate. generalize (generateToken (tokenSeed storagePath w)).
  intros generated.
  destruct (writeFileSync w path _) as [w1|] eqn:Hw;
    cbn [fst snd env unwritable files logged log_event].
  - destruct (writeFileSync_frame _ _ _ _ Hw) as (Henv & Hun & Hlog & Hfiles).
    rewrite Henv, Hun, Hlog, Hfiles. repeat split; auto.
    + intros p Hp. now rewrite lookup_insert_ne.
    + rewrite <- !app_assoc. eauto.
  - repeat split; auto. rewrite <- !app_assoc. eauto.
Qed.

Lemma tokenSeed_files storagePath w w' :
  files w' !! path_resolve storagePath ".uix-secrets"
  = files w !! path_resolve storagePath ".uix-secrets" ->
  tokenSeed storagePath w' = tokenSeed storagePath w.
Proof. intros Hfiles. unfold tokenSeed, readFileSync. now rewrite Hfiles. Qed.

Lemma resolveApiToken_other_files config storagePath w p :
  p <> path_resolve storagePath TOKEN_FILE_NAME ->
  files (fst (resolveApiToken config storagePath w)) !! p = files w !! p.
Proof.
  intros Hp. rewrite resolveApiToken_layers.
  destruct (envSource w); [reflexivity|].
  destruct (fileSource storagePath w); [reflexivity|].
  destruct (configSource config); [reflexivity|].
  now apply autoGenerate_frame.
Qed.

(** X1. The token resolution never changes the environment, never touches a
    file other than the token file, leaves every file as it was unless the
    token is generated, and only adds to the log. *)
Theorem resolveApiToken_footprint :
  forall (config : Config) (storagePath : string) (w : World),
    env (fst (resolveApiToken config storagePath w)) = env w
    /\ unwritable (fst (resolveApiToken config storagePath w)) = unwritable w
    /\ (forall p : string,
          p <> path_resolve storagePath TOKEN_FILE_NAME ->
          files (fst (resolveApiToken config storagePath w)) !! p = files w !! p)
    /\ (source (snd (resolveApiToken config storagePath w)) <> "auto" ->
        files (fst (resolveApiToken config storagePath w)) = files w)
    /\ exists events,
         logged (fst (resolveApiToken config storagePath w)) = logged w ++ events.
Proof.
  intros config storagePath w. rewrite resolveApiToken_layers.
  destruct (envSource w); [cbn; repeat split; eauto|].
  destruct (fileSource storagePath w); [cbn; repeat split; eauto|].
  destruct (configSource config); [cbn; repeat split; eauto|].
  destruct (autoGenerate_frame storagePath (path_resolve storagePath TOKEN_FILE_NAME) w)
    as (Henv & Hun & Hfiles & Hlog).
  repeat split; auto.
  rewrite autoGenerate_token. cbn [snd source]. congruence.
Qed.

(** X2. The length floor of each provenance: a token from the environment is
    not empty, one from the file has at least 16 characters and no
    surrounding white space, one from the configuration has at least 8, a
    generated one has 48. *)
Theorem resolveApiToken_floor :
  forall (config : Config) (storagePath : string) (w : World),
    (source (snd (resolveApiToken config storagePath w)) = "env"
     /\ token (snd (resolveApiToken config storagePath w)) <> "")
    \/ (source (snd (resolveApiToken config storagePath w)) = "file"
        /\ (16 <= strlen (token (snd (resolveApiToken config storagePath w))))%nat
        /\ trim (token (snd (resolveApiToken config storagePath w)))
           = token (snd (resolveApiToken config storagePath w)))
    \/ (source (snd (resolveApiToken config storagePath w)) = "config"
        /\ (8 <= strlen (token (snd (resolveApiToken config storagePath w))))%nat)
    \/ (source (snd (resolveApiToken config storagePath w)) = "auto"
        /\ strlen (token (snd (resolveApiToken config storagePath w))) = 48%nat).
Proof.
  intros config storagePath w. rewrite resolveApiToken_layers.
  destruct (envSource w) as [e|] eqn:Henv.
  { left. cbn. split; [reflexivity|].
    unfold envSource in Henv. destruct (env w !! TOKEN_ENV_VAR) as [e'|]; [|discriminate].
    destruct (str_truthy e') eqn:He; [|discriminate].
    inversion Henv; subst. now apply str_truthy_true. }
  destruct (fileSource storagePath w) as [t|] eqn:Hfile.
  { right; left. cbn. split; [reflexivity|].
    unfold fileSource in Hfile. destruct (readFileSync w _) as [content|]; [|discriminate].
    destruct (16 <=? strlen (trim content))%nat eqn:Hlen; [|discriminate].
    inversion Hfile; subst. split; [now apply Nat.leb_le|apply trim_idempotent]. }
  destruct (configSource config) as [t|] eqn:Hconfig.
  { right; right; left. cbn. split; [reflexivity|].
    unfold configSource in Hconfig. destruct (config_token config) as [t'|]; [|discriminate].
    destruct (8 <=? strlen t')%nat eqn:Hlen; [|discriminate].
    inversion Hconfig; subst. now apply Nat.leb_le. }
  right; right; right. rewrite autoGenerate_token. cbn [snd source token].
  split; [reflexivity|apply generateToken_length].
Qed.

(** X3. A restart does not change the token: resolving again on the storage the
    first resolution left, with the same configuration, gives the same
    token, whatever its provenance was and whether or not the generated
    token could be written. *)
Theorem resolveApiToken_stable :
  forall (config : Config) (storagePath : string) (w : World),
    token (snd (resolveApiToken config storagePath
                  (fst (resolveApiToken config storagePath w))))
    = token (snd (resolveApiToken config storagePath w)).
Proof.
  intros config storagePath w.
  rewrite (resolveApiToken_layers config storagePath w).
  destruct (envSource w) as [e|] eqn:Henv.
  { cbn [fst snd]. rewrite resolveApiToken_layers.
    change (envSource (log_event LInfo TokenFromEnv w)) with (envSource w).
    now rewrite Henv. }
  destruct (fileSource storagePath w) as [t|] eqn:Hfile.
  { cbn [fst snd]. rewrite resolveApiToken_layers.
    change (envSource (log_event LInfo (TokenFromFile _) w)) with (envSource w).
    change (fileSource storagePath (log_event LInfo (TokenFromFile _) w))
      with (fileSource storagePath w).
    now rewrite Henv, Hfile. }
  destruct (configSource config) as [t|] eqn:Hconfig.
  { cbn [fst snd]. rewrite resolveApiToken_layers.
    change (envSource (log_event LInfo TokenFromConfig w)) with (envSource w).
    change (fileSource storagePath (log_event LInfo TokenFromConfig w))
      with (fileSource storagePath w).
    now rewrite Henv, Hfile, Hconfig. }
  set (path := path_resolve storagePath TOKEN_FILE_NAME).
  set (generated := generateToken (tokenSeed storagePath w)).
  rewrite autoGenerate_token. cbn [token].
  rewrite resolveApiToken_layers. fold path.
  destruct (writeFileSync w path (generated +:+ String "010"%char "")) as [w1|] eqn:Hw.
  - destruct (autoGenerate_world storagePath path w w1 Hw) as [Hfiles Henv1].
    destruct (writeFileSync_files _ _ _ _ Hw) as [Hfiles1 Henv2].
    assert (Henv' : envSource (fst (autoGenerate storagePath path w)) = None).
    { unfold envSource in *. rewrite Henv1, Henv2. exact Henv. }
    assert (Hfile' : fileSource storagePath (fst (autoGenerate storagePath path w))
                     = Some generated).
    { unfold fileSource, readFileSync. fold path.
      rewrite Hfiles, Hfiles1, lookup_insert_eq.
      rewrite (trim_hex_line generated (generateToken_hex _)).
      unfold generated. now rewrite generateToken_length. }
    rewrite Henv', Hfile'. reflexivity.
  - assert (Hsame : fst (autoGenerate storagePath path w)
      = log_event LInfo TokenBannerRule
          (log_event LInfo TokenBannerHint
             (log_event LInfo (TokenBanner generated)
                (log_event LInfo TokenBannerRule (log_event LWarn TokenNotSaved w))))).
    { unfold autoGenerate. fold generated. rewrite Hw. reflexivity. }
    rewrite Hsame.
    match goal with
    | |- context [envSource ?w'] => change (envSource w') with (envSource w)
    end.
    match goal with
    | |- context [fileSource storagePath ?w'] =>
        change (fileSource storagePath w') with (fileSource storagePath w)
    end.
    rewrite Henv, Hfile, Hconfig, autoGenerate_token. reflexivity.
Qed.

(** X4. A token file that cannot be written is not fatal: the generated token is
    returned all the same, no file changes, and the failure is logged as a
    warning. *)
Theorem resolveApiToken_unsaved :
  forall (config : Config) (storagePath : string) (w : World),
    envSource w = None ->
    fileSource storagePath w = None ->
    configSource config = None ->
    writeFileSync w (path_resolve storagePath TOKEN_FILE_NAME)
      (generateToken (tokenSeed storagePath w) +:+ String "010"%char "") = None ->
    snd (resolveApiToken config storagePath w)
    = {| token := generateToken (tokenSeed storagePath w); source := "auto" |}
    /\ files (fst (resolveApiToken config storagePath w)) = files w
    /\ In (LWarn, TokenNotSaved) (logged (fst (resolveApiToken config storagePath w)))
    /\ ~ In (LInfo, TokenSaved (path_resolve storagePath TOKEN_FILE_NAME))
          (skipn (length (logged w)) (logged (fst (resolveApiToken config storagePath w)))).
Proof.
  intros config storagePath w Henv Hfile Hconfig Hw.
  rewrite resolveApiToken_layers, Henv, Hfile, Hconfig.
  unfold autoGenerate. rewrite Hw.
  generalize (generateToken (tokenSeed storagePath w)). intros generated.
  cbn [fst snd files logged log_event].
  repeat split.
  - rewrite !in_app_iff. cbn [In]. tauto.
  - rewrite <- !app_assoc, skipn_app, Nat.sub_diag, skipn_all. cbn [app skipn In].
    intros [H1|[H1|[H1|[H1|[H1|[]]]]]]; discriminate.
Qed.

(** X5. Without a readable secret key the generated token is one fixed value,
    the same on every installation. *)
Theorem resolveApiToken_default_seed :
  forall (config : Config) (storagePath : string) (w : World),
    envSource w = None ->
    fileSource storagePath w = None ->
    configSource config = None ->
    ~ SecretKeyAvailable storagePath w ->
    snd (resolveApiToken config storagePath w)
    = {| token := "92ea75131ed5300f01a329ea9c51e40aa28451f5134d4c13"; source := "auto" |}.
Proof.
  intros config storagePath w Henv Hfile Hconfig Hkey.
  rewrite resolveApiToken_layers, Henv, Hfile, Hconfig, autoGenerate_token.
  assert (Hseed : tokenSeed storagePath w = "openclaw-default-seed").
  { unfold tokenSeed.
    destruct (readFileSync w _) as [text|] eqn:Hread; [|reflexivity].
    destruct (parse_secrets text) as [doc|] eqn:Hparse; [|reflexivity].
    destruct (secrets_secretKey doc) as [key|] eqn:Hdoc; [|reflexivity].
    destruct key as [|c key]; [reflexivity|].
    exfalso. apply Hkey. exists text, doc, (String c key).
    repeat split; auto; discriminate. }
  rewrite Hseed. vm_compute. reflexivity.
Qed.

End TokenFootprint.


Lemma resolveApiToken_footprint_witness :
  files (fst (@resolveApiToken exampleHost
                {| config_token := Some "configured"; homebridgeUiUrl := None;
                   homebridgeUiUser := None; homebridgeUiPass := None |}
                "/s" secretsWorld))
  = files secretsWorld.
Proof.
  apply (@resolveApiToken_footprint exampleHost).
  vm_compute. discriminate.
Defined.

Lemma resolveApiToken_unsaved_witness :
  snd (@resolveApiToken exampleHost noConfig "/var/lib/homebridge" readOnlyWorld)
  = {| token := generateToken (@tokenSeed exampleHost "/var/lib/homebridge" readOnlyWorld);
       source := "auto" |}
  /\ files (fst (@resolveApiToken exampleHost noConfig "/var/lib/homebridge" readOnlyWorld))
     = files readOnlyWorld
  /\ In (LWarn, TokenNotSaved)
       (logged (fst (@resolveApiToken exampleHost noConfig "/var/lib/homebridge"
                       readOnlyWorld)))
  /\ ~ In (LInfo, TokenSaved (@path_resolve exampleHost "/var/lib/homebridge" TOKEN_FILE_NAME))
        (skipn (length (logged readOnlyWorld))
           (logged (fst (@resolveApiToken exampleHost noConfig "/var/lib/homebridge"
                           readOnlyWorld)))).
Proof.
  apply (@resolveApiToken_unsaved exampleHost noConfig "/var/lib/homebridge" readOnlyWorld);
    reflexivity.
Defined.

Lemma resolveApiToken_default_seed_witness :
  snd (@resolveApiToken exampleHost noConfig "/var/lib/homebridge" emptyWorld)
  = {| token := "92ea75131ed5300f01a329ea9c51e40aa28451f5134d4c13"; source := "auto" |}.
Proof.
  apply (@resolveApiToken_default_seed exampleHost noConfig "/var/lib/homebridge" emptyWorld);
    try reflexivity.
  intros (text & doc & key & Hread & _). vm_compute in Hread. discriminate.
Defined.

(** *** The storage path *)

Section StoragePath.
Context `{Host}.

(** X6. The storage path: the environment value when it is set and not empty;
    otherwise /var/lib/homebridge when its secrets file exists, else the
    .homebridge directory of the home when its secrets file exists, else
    /var/lib/homebridge again, whether or not anything is there. *)
Theorem detectStoragePath_choice :
  forall (homedir : string) (w : World),
    (forall e : string,
        env w !! "UIX_STORAGE_PATH" = Some e -> e <> "" ->
        detectStoragePath homedir w = e)
    /\ (opt_truthy (env w !! "UIX_STORAGE_PATH") = false ->
        existsSync w (path_resolve "/var/lib/homebridge" ".uix-secrets") = true ->
        detectStoragePath homedir w = "/var/lib/homebridge")
    /\ (opt_truthy (env w !! "UIX_STORAGE_PATH") = false ->
        existsSync w (path_resolve "/var/lib/homebridge" ".uix-secrets") = false ->
        existsSync w (path_resolve (path_resolve homedir ".homebridge") ".uix-secrets")
        = true ->
        detectStoragePath homedir w = path_resolve homedir ".homebridge")
    /\ (opt_truthy (env w !! "UIX_STORAGE_PATH") = false ->
        existsSync w (path_resolve "/var/lib/homebridge" ".uix-secrets") = false ->
        existsSync w (path_resolve (path_resolve homedir ".homebridge") ".uix-secrets")
        = false ->
        detectStoragePath homedir w = "/var/lib/homebridge").
Proof.
  intros homedir w. unfold detectStoragePath, storageCandidates. cbn [find].
  repeat split.
  - intros e -> He. apply str_truthy_true in He. now rewrite He.
  - intros Henv Hsys. rewrite Hsys.
    destruct (env w !! "UIX_STORAGE_PATH") as [e|]; [|reflexivity].
    cbn in Henv. now rewrite Henv.
  - intros Henv Hsys Hhome. rewrite Hsys, Hhome.
    destruct (env w !! "UIX_STORAGE_PATH") as [e|]; [|reflexivity].
    cbn in Henv. now rewrite Henv.
  - intros Henv Hsys Hhome. rewrite Hsys, Hhome.
    destruct (env w !! "UIX_STORAGE_PATH") as [e|]; [|reflexivity].
    cbn in Henv. now rewrite Henv.
Qed.

End StoragePath.

Lemma detectStoragePath_choice_witness :
  @detectStoragePath exampleHost "/home/pi" homeWorld = "/home/pi/.homebridge".
Proof.
  apply (proj1 (proj2 (proj2 (@detectStoragePath_choice exampleHost "/home/pi" homeWorld))));
    reflexivity.
Defined.

(** *** The platform constructor *)

Section PlatformConstruction.
Context `{Host}.

Lemma readSecretKey_files storagePath w w' :
  files w' !! path_resolve storagePath ".uix-secrets"
  = files w !! path_resolve storagePath ".uix-secrets" ->
  readSecretKey storagePath w' = readSecretKey storagePath w.
Proof. intros Hfiles. unfold readSecretKey, readFileSync. now rewrite Hfiles. Qed.

Lemma readAdminUser_files storagePath w w' :
  files w' !! path_resolve storagePath "auth.json"
  = files w !! path_resolve storagePath "auth.json" ->
  readAdminUser storagePath w' = readAdminUser storagePath w.
Proof. intros Hfiles. unfold readAdminUser, readFileSync. now rewrite Hfiles. Qed.

Lemma newUiClient_client path uiUrl user pass w :
  snd (newUiClient path uiUrl user pass w)
  = {| storagePath := path;
       baseUrl := stripTrailingSlashes (or_str uiUrl DEFAULT_UI_URL);
       uiUser := or_null user; uiPass := or_null pass;
       jwt := VNull; jwtExpires := num 0;
       secretKey := fst (readSecretKey path w);
       adminUser := readAdminUser path w;
       instanceId := snd (readSecretKey path w);
       authMode :=
         if opt_truthy (fst (readSecretKey path w)) && opt_truthy (readAdminUser path w)
         then ModeJwtDirect
         else if opt_truthy (or_null user) && opt_truthy (or_null pass)
              then ModeLogin
              else ModeNone |}.
Proof.
  unfold newUiClient, detectAuthMode. cbn [storagePath].
  destruct (readSecretKey path w) as [key instance]. cbn.
  destruct (opt_truthy key && opt_truthy (readAdminUser path w)); [reflexivity|].
  destruct (opt_truthy (or_null user) && opt_truthy (or_null pass)); reflexivity.
Qed.

Lemma tokenSeed_readSecretKey storagePath w :
  tokenSeed storagePath w
  = or_str (fst (readSecretKey storagePath w)) "openclaw-default-seed".
Proof.
  unfold tokenSeed, readSecretKey.
  destruct (readFileSync w _) as [text|]; [|reflexivity].
  destruct (parse_secrets text) as [doc|]; [|reflexivity].
  destruct (secrets_secretKey doc) as [key|]; [|reflexivity].
  destruct key; reflexivity.
Qed.

Lemma resolveApiToken_auto config storagePath w :
  source (snd (resolveApiToken config storagePath w)) = "auto" ->
  token (snd (resolveApiToken config storagePath w))
  = generateToken (tokenSeed storagePath w).
Proof.
  rewrite resolveApiToken_layers.
  destruct (envSource w); [discriminate|].
  destruct (fileSource storagePath w); [discriminate|].
  destruct (configSource config); [discriminate|].
  now rewrite autoGenerate_token.
Qed.

Lemma readSecretKey_truthy storagePath w key :
  fst (readSecretKey storagePath w) = Some key -> str_truthy key = true.
Proof.
  unfold readSecretKey.
  destruct (readFileSync w _) as [text|]; [|discriminate].
  destruct (parse_secrets text) as [doc|]; [|discriminate].
  destruct (secrets_secretKey doc) as [k|]; [|discriminate].
  destruct (str_truthy k) eqn:Hk; [|discriminate].
  cbn. congruence.
Qed.

(** X7. The constructor of the platform resolves the token and builds the
    client on one and the same storage path. When the token file is a file
    of its own, resolving the token first does not disturb the client,
    which comes out as if built on the storage as it was found; and a
    generated API token is the HMAC of the very secret key the client
    signs with. *)
Theorem newPlatform_shared_storage :
  forall (homedir : string) (config : Config) (w : World),
    platform_storagePath (snd (newPlatform homedir config w))
    = detectStoragePath homedir w
    /\ storagePath (platform_uiClient (snd (newPlatform homedir config w)))
       = detectStoragePath homedir w
    /\ platform_apiToken (snd (newPlatform homedir config w))
       = token (snd (resolveApiToken config (detectStoragePath homedir w) w))
    /\ (path_resolve (detectStoragePath homedir w) TOKEN_FILE_NAME
        <> path_resolve (detectStoragePath homedir w) ".uix-secrets" ->
        path_resolve (detectStoragePath homedir w) TOKEN_FILE_NAME
        <> path_resolve (detectStoragePath homedir w) "auth.json" ->
        platform_uiClient (snd (newPlatform homedir config w))
        = snd (newUiClient (detectStoragePath homedir w) (homebridgeUiUrl config)
                 (homebridgeUiUser config) (homebridgeUiPass config) w)
        /\ forall key : string,
             secretKey (platform_uiClient (snd (newPlatform homedir config w))) = Some key ->
             source (snd (resolveApiToken config (detectStoragePath homedir w) w)) = "auto" ->
             platform_apiToken (snd (newPlatform homedir config w)) = generateToken key).
Proof.
  intros homedir config w. unfold newPlatform.
  set (path := detectStoragePath homedir w).
  pose proof (resolveApiToken_other_files config path w) as Hfiles.
  pose proof (resolveApiToken_auto config path w) as Hauto.
  destruct (resolveApiToken config path w) as [w1 resolved].
  cbn [fst snd] in Hfiles, Hauto |- *.
  pose proof (newUiClient_client path (homebridgeUiUrl config) (homebridgeUiUser config)
                (homebridgeUiPass config) w1) as Hclient.
  destruct (newUiClient path _ _ _ w1) as [w2 c].
  cbn [fst snd platform_storagePath platform_apiToken platform_uiClient] in *.
  split; [reflexivity|]. split; [now rewrite Hclient|]. split; [reflexivity|].
  intros Hsecrets Hauth.
  assert (Hsame : c = snd (newUiClient path (homebridgeUiUrl config)
                             (homebridgeUiUser config) (homebridgeUiPass config) w)).
  { rewrite Hclient, newUiClient_client.
    rewrite (readSecretKey_files path w w1), (readAdminUser_files path w w1);
      [reflexivity| |]; apply Hfiles; congruence. }
  split; [exact Hsame|].
  intros key Hkey Hsource.
  rewrite Hsame, newUiClient_client in Hkey. cbn [secretKey] in Hkey.
  rewrite (Hauto Hsource), tokenSeed_readSecretKey, Hkey.
  cbn [or_str]. now rewrite (readSecretKey_truthy path w key Hkey).
Qed.

End PlatformConstruction.

Lemma newPlatform_shared_storage_witness :
  platform_uiClient (snd (@newPlatform exampleHost "/home/pi" noConfig homeWorld))
  = snd (@newUiClient exampleHost (@detectStoragePath exampleHost "/home/pi" homeWorld)
           (homebridgeUiUrl noConfig) (homebridgeUiUser noConfig)
           (homebridgeUiPass noConfig) homeWorld)
  /\ forall key : string,
       secretKey (platform_uiClient (snd (@newPlatform exampleHost "/home/pi" noConfig
                                            homeWorld))) = Some key ->
       source (snd (@resolveApiToken exampleHost noConfig
                      (@detectStoragePath exampleHost "/home/pi" homeWorld) homeWorld))
       = "auto" ->
       platform_apiToken (snd (@newPlatform exampleHost "/home/pi" noConfig homeWorld))
       = generateToken key.
Proof.
  apply (proj2 (proj2 (proj2 (@newPlatform_shared_storage exampleHost "/home/pi" noConfig
                                homeWorld))));
    vm_compute; discriminate.
Defined.

(** The platform on a home directory that holds the secrets: the API token
    is the HMAC of the key found there. *)
Example newPlatform_home_directory :
  let p := snd (@newPlatform exampleHost "/home/pi" noConfig homeWorld) in
  platform_storagePath p = "/home/pi/.homebridge"
  /\ secretKey (platform_uiClient p) = Some "0f1e2d3c"
  /\ platform_apiToken p = generateToken "0f1e2d3c".
Proof. vm_compute. repeat split; reflexivity. Qed.

(** *** The bearer check *)

Lemma or_str_some_empty s : or_str (Some s) "" = s.
Proof. destruct s; reflexivity. Qed.

Lemma startsWith_split p s :
  startsWith p s = true -> s = p +:+ substringFrom (strlen p) s.
Proof.
  revert s. induction p as [|a p IH]; intros s Hs; [reflexivity|].
  destruct s as [|b s]; [discriminate|].
  cbn in Hs. apply andb_true_iff in Hs as [Hab Hps].
  apply Ascii.eqb_eq in Hab. subst b.
  change (String a s = String a (p +:+ substringFrom (strlen p) s)).
  f_equal. now apply IH.
Qed.

Lemma startsWith_append p r : startsWith p (p +:+ r) = true.
Proof.
  induction p as [|a p IH]; [reflexivity|].
  change (Ascii.eqb a a && startsWith p (p +:+ r) = true).
  now rewrite Ascii.eqb_refl.
Qed.

Lemma substringFrom_append p r : substringFrom (strlen p) (p +:+ r) = r.
Proof. induction p as [|a p IH]; [now destruct r|]. exact IH. Qed.

Lemma auth_header (authorization : option string) (apiToken : string) :
  auth authorization apiToken = true
  <-> authorization = Some ("Bearer " +:+ apiToken).
Proof.
  unfold auth. split.
  - destruct (startsWith "Bearer " (or_str authorization "")) eqn:Hstart; [|discriminate].
    cbn [negb orb].
    destruct (String.eqb_spec (substringFrom 7 (or_str authorization "")) apiToken)
      as [Htok|Htok]; [|discriminate].
    intros _. apply startsWith_split in Hstart.
    change (strlen "Bearer ") with 7%nat in Hstart. rewrite Htok in Hstart.
    destruct authorization as [h|]; [|discriminate].
    rewrite or_str_some_empty in Hstart. now rewrite Hstart.
  - intros ->. rewrite or_str_some_empty, startsWith_append.
    change 7%nat with (strlen "Bearer ").
    rewrite substringFrom_append, String.eqb_refl. reflexivity.
Qed.

(** X8. The bearer check lets a request through exactly when its Authorization
    header is the word Bearer, one space and the API token, character for
    character; a missing header, another scheme, another letter case or a
    longer credential are all refused. *)
Theorem auth_exact :
  forall (authorization : option string) (apiToken : string),
    auth authorization apiToken = true
    <-> authorization = Some ("Bearer " +:+ apiToken).
Proof. exact auth_header. Qed.

Lemma auth_exact_witness :
  auth (Some "Bearer 0123456789abcdef") "0123456789abcdef" = true.
Proof. apply (proj2 (auth_exact (Some "Bearer 0123456789abcdef") "0123456789abcdef")). reflexivity. Defined.

Example auth_refuses_lower_case_scheme :
  auth (Some "bearer 0123456789abcdef") "0123456789abcdef" = false.
Proof. reflexivity. Qed.

Example auth_refuses_longer_credential :
  auth (Some "Bearer 0123456789abcdef0") "0123456789abcdef" = false.
Proof. reflexivity. Qed.

(** *** The catalog *)

Lemma lower_char_idempotent c : lower_char (lower_char c) = lower_char c.
Proof. destruct c as [[] [] [] [] [] [] [] []]; vm_compute; reflexivity. Qed.

Lemma toLowerCase_idempotent s : toLowerCase (toLowerCase s) = toLowerCase s.
Proof.
  induction s as [|c s IH]; [reflexivity|].
  cbn. now rewrite lower_char_idempotent, IH.
Qed.

Lemma mapType_canonical label : In (mapType label) canonicalTypes.
Proof.
  unfold mapType, canonicalTypes.
  repeat match goal with
         | |- context [if ?b then _ else _] => destruct b
         end; cbn; tauto.
Qed.

(** X9. The canonical type is one of twelve names, and the letter case of the
    label does not matter. *)
Theorem mapType_closed :
  forall label : option string,
    In (mapType label) canonicalTypes
    /\ mapType (option_map toLowerCase label) = mapType label.
Proof.
  intros label. split; [apply mapType_canonical|].
  unfold mapType. destruct label as [l|]; [|reflexivity].
  cbn [option_map]. rewrite !or_str_some_empty, toLowerCase_idempotent.
  reflexivity.
Qed.

Lemma parseService_cases svc :
  parseService [] svc = []
  \/ exists uid,
       uniqueId svc = Some uid /\ uid <> ""
       /\ serviceTypeLabel svc <> "AccessoryInformation"
       /\ serviceTypeLabel svc <> "ProtocolInformation"
       /\ toLowerCase (serviceDisplayName svc) <> "openclaw api"
       /\ parseService [] svc
          = [ {| device_id := uid;
                 device_name := serviceDisplayName svc;
                 device_type := mapType (Some (serviceTypeLabel svc));
                 device_humanType := serviceTypeLabel svc;
                 device_state :=
                   match values svc with
                   | Some v => if Boolean v then v else VObj []
                   | None => VObj []
                   end;
                 device_characteristics :=
                   map char_type
                     (filter (fun c => canWrite c = true)
                        (default [] (serviceCharacteristics svc)));
                 device_manufacturer := or_str (info_field svc info_Manufacturer) "";
                 device_model := or_str (info_field svc info_Model) "" |} ].
Proof.
  unfold parseService.
  destruct (uniqueId svc) as [uid|]; [|now left].
  destruct uid as [|c uid]; [now left|]. cbn [str_truthy negb orb].
  destruct (String.eqb_spec (serviceTypeLabel svc) "AccessoryInformation"); [now left|].
  destruct (String.eqb_spec (serviceTypeLabel svc) "ProtocolInformation"); [now left|].
  cbn [orb].
  destruct (String.eqb_spec (toLowerCase (serviceDisplayName svc)) "openclaw api");
    [now left|].
  right. exists (String c uid). repeat split; auto; discriminate.
Qed.

(** X10. Every device of the catalog comes from one record of the snapshot: it
    carries the id of that record, which is not empty; it is not a
    structural record nor the plugin's own; its type is canonical; its state
    is an object whenever the record reports none; and every characteristic
    it lists is one the record marks writable. The catalog has no more
    devices than the snapshot has records. *)
Theorem parseAccessories_devices :
  forall (raw : RawSnapshot),
    (forall d : Device,
        In d (parseAccessories raw) ->
        exists (services : list Service) (svc : Service),
          raw = RawArray services
          /\ In svc services
          /\ uniqueId svc = Some (device_id d)
          /\ device_id d <> ""
          /\ device_humanType d <> "AccessoryInformation"
          /\ device_humanType d <> "ProtocolInformation"
          /\ toLowerCase (device_name d) <> "openclaw api"
          /\ In (device_type d) canonicalTypes
          /\ (values svc = None -> device_state d = VObj [])
          /\ (forall c : string,
                In c (device_characteristics d) ->
                exists ch : Characteristic,
                  In ch (default [] (serviceCharacteristics svc))
                  /\ canWrite ch = true /\ char_type ch = c))
    /\ (forall services : list Service,
          raw = RawArray services ->
          (length (parseAccessories raw) <= length services)%nat)
    /\ (raw = RawOther -> parseAccessories raw = []).
Proof.
  intros raw. split; [|split].
  - intros d Hd. destruct raw as [services|]; [|contradiction].
    unfold parseAccessories in Hd. rewrite fold_parseService in Hd. cbn in Hd.
    apply in_flat_map in Hd as (svc & Hsvc & Hd).
    exists services, svc. split; [reflexivity|]. split; [exact Hsvc|].
    destruct (parseService_cases svc) as [Hnone|(uid & Huid & Hne & Hai & Hpi & Hname & Hone)].
    { rewrite Hnone in Hd. contradiction. }
    rewrite Hone in Hd. destruct Hd as [<-|[]]. cbn.
    repeat split; auto.
    + apply mapType_canonical.
    + intros ->. reflexivity.
    + intros c Hc. apply in_map_iff in Hc as (ch & Hch & Hin).
      apply list_elem_of_In, list_elem_of_filter in Hin as [Hw Hin].
      exists ch. repeat split; auto. now apply list_elem_of_In.
  - intros services ->. unfold parseAccessories. rewrite fold_parseService. cbn.
    induction services as [|svc services IH]; [reflexivity|].
    cbn [flat_map]. rewrite length_app. cbn [length].
    destruct (parseService_cases svc) as [->|(uid & _ & _ & _ & _ & _ & ->)]; cbn; lia.
  - intros ->. reflexivity.
Qed.

Lemma parseAccessories_devices_witness :
  exists (services : list Service) (svc : Service),
    exampleSnapshot = RawArray services
    /\ In svc services
    /\ uniqueId svc = Some "c3"
    /\ "c3" <> ""
    /\ "Thermostat" <> "AccessoryInformation"
    /\ "Thermostat" <> "ProtocolInformation"
    /\ toLowerCase "Hall" <> "openclaw api"
    /\ In "thermostat" canonicalTypes
    /\ (values svc = None -> VObj [] = VObj [])
    /\ (forall c : string,
          In c ["TargetTemperature"] ->
          exists ch : Characteristic,
            In ch (default [] (serviceCharacteristics svc))
            /\ canWrite ch = true /\ char_type ch = c).
Proof.
  apply (proj1 (parseAccessories_devices exampleSnapshot)
           {| device_id := "c3"; device_name := "Hall"; device_type := "thermostat";
              device_humanType := "Thermostat"; device_state := VObj [];
              device_characteristics := ["TargetTemperature"];
              device_manufacturer := ""; device_model := "" |}).
  vm_compute. right. left. reflexivity.
Defined.

(** The example snapshot, parsed: the record of the plugin is gone, the
    read-only characteristic is not listed, the missing name falls back to
    the accessory information. *)
Example parseAccessories_example :
  map (fun d => (device_id d, device_name d, device_type d, device_characteristics d))
      (parseAccessories exampleSnapshot)
  = [ ("a1", "Desk lamp", "lightbulb", ["On"; "Brightness"]);
      ("c3", "Hall", "thermostat", ["TargetTemperature"]) ].
Proof. reflexivity. Qed.

(** *** The client *)

Lemma stripTrailingSlashes_tail s :
  exists tail,
    s = stripTrailingSlashes s +:+ tail
    /\ string_forall (fun c => Ascii.eqb c "/") tail = true.
Proof.
  induction s as [|c s (tail & Hs & Htail)]; [exists ""; auto|].
  cbn [stripTrailingSlashes]. destruct (stripTrailingSlashes s) as [|d t] eqn:Hstrip.
  - change (s = tail) in Hs. subst tail.
    destruct (Ascii.eqb c "/") eqn:Hc.
    + exists (String c s). split; [reflexivity|].
      cbn [string_forall]. now rewrite Hc, Htail.
    + exists s. split; [reflexivity|exact Htail].
  - exists tail. split; [|exact Htail].
    change (String c s = String c (String d t +:+ tail)). now rewrite <- Hs.
Qed.

Lemma stripTrailingSlashes_end s : endsWithSlash (stripTrailingSlashes s) = false.
Proof.
  induction s as [|c s IH]; [reflexivity|].
  cbn [stripTrailingSlashes]. destruct (stripTrailingSlashes s) as [|d t] eqn:Hstrip.
  - destruct (Ascii.eqb c "/") eqn:Hc; [reflexivity|]. cbn. exact Hc.
  - exact IH.
Qed.

Section ClientProperties.
Context `{Host}.

(** X11. The base URL of the client never ends with a slash: it is the declared
    URL, or the default one when none is declared, without its trailing
    slashes and otherwise unchanged. A declared URL made of slashes only
    gives the empty base, not the default. *)
Theorem newUiClient_baseUrl :
  forall (path : string) (uiUrl user pass : option string) (w : World),
    endsWithSlash (baseUrl (snd (newUiClient path uiUrl user pass w))) = false
    /\ (opt_truthy uiUrl = false ->
        baseUrl (snd (newUiClient path uiUrl user pass w)) = DEFAULT_UI_URL)
    /\ (forall u : string,
          uiUrl = Some u -> u <> "" ->
          exists tail : string,
            u = baseUrl (snd (newUiClient path uiUrl user pass w)) +:+ tail
            /\ string_forall (fun c => Ascii.eqb c "/") tail = true).
Proof.
  intros path uiUrl user pass w. rewrite newUiClient_client. cbn [baseUrl].
  split; [apply stripTrailingSlashes_end|]. split.
  - intros Hurl. destruct uiUrl as [u|]; [|reflexivity].
    cbn in Hurl. cbn [or_str]. rewrite Hurl. reflexivity.
  - intros u -> Hu. apply str_truthy_true in Hu. cbn [or_str]. rewrite Hu.
    apply stripTrailingSlashes_tail.
Qed.

(** X12. Building the client reads the storage and writes nothing: the
    environment and every file are as before, and the log gains one line
    in the modes jwt-direct and login, two error lines in mode none. *)
Theorem newUiClient_footprint :
  forall (path : string) (uiUrl user pass : option string) (w : World),
    env (fst (newUiClient path uiUrl user pass w)) = env w
    /\ files (fst (newUiClient path uiUrl user pass w)) = files w
    /\ unwritable (fst (newUiClient path uiUrl user pass w)) = unwritable w
    /\ logged (fst (newUiClient path uiUrl user pass w))
       = logged w ++
         match authMode (snd (newUiClient path uiUrl user pass w)) with
         | ModeJwtDirect => [ (LInfo, AuthModeJwtDirect) ]
         | ModeLogin => [ (LInfo, AuthModeLogin) ]
         | ModeNone => [ (LError, AuthModeNone); (LError, AuthModeNoneHint) ]
         end.
Proof.
  intros path uiUrl user pass w. unfold newUiClient, detectAuthMode. cbn [storagePath].
  destruct (readSecretKey path w) as [key instance]. cbn.
  destruct (opt_truthy key && opt_truthy (readAdminUser path w)); [cbn; auto|].
  destruct (opt_truthy (or_null user) && opt_truthy (or_null pass)); cbn; auto.
  repeat split. now rewrite <- app_assoc.
Qed.

(** X13. In mode jwt-direct a credential is obtained without contacting the hub:
    [token()] never throws, sends nothing and leaves the hub as it is. *)
Theorem clientToken_jwt_direct_offline :
  forall s : Session,
    authMode (client s) = ModeJwtDirect ->
    hub (fst (clientToken s)) = hub s
    /\ sent (fst (clientToken s)) = sent s
    /\ snd (clientToken s) = Return (jwt (client (fst (clientToken s))))
    /\ (credentialStale s = true ->
        jwt (client (fst (clientToken s)))
        = VStr (signJwt (client s) (Date_now (hub s)))
        /\ jwtExpires (client (fst (clientToken s)))
           = num_add (Date_now (hub s)) (num 25200000))
    /\ (credentialStale s = false -> fst (clientToken s) = s).
Proof.
  intros s Hmode. unfold clientToken. rewrite Hmode.
  destruct (credentialStale s); cbn; repeat split; auto; discriminate.
Qed.

(** X14. A credential is reused as long as it is valid: once [token()] has
    returned a truthy credential, a later call made before the expiry the
    client noted returns the same credential and does nothing else, in
    either mode and whatever the hub has become. *)
Theorem clientToken_reuse :
  forall (s : Session) (tok : JSValue) (later : Hub),
    snd (clientToken s) = Return tok ->
    Boolean tok = true ->
    num_ge (Date_now later) (jwtExpires (client (fst (clientToken s)))) = false ->
    clientToken {| client := client (fst (clientToken s)); hub := later;
                   sent := sent (fst (clientToken s)) |}
    = ({| client := client (fst (clientToken s)); hub := later;
          sent := sent (fst (clientToken s)) |},
       Return tok).
Proof.
  intros s tok later Hret Htruthy Hfresh.
  assert (Hjwt : jwt (client (fst (clientToken s))) = tok).
  { revert Hret. unfold clientToken.
    destruct (authMode (client s)); [| |discriminate].
    - destruct (credentialStale s); cbn; congruence.
    - destruct (credentialStale s); [|cbn; congruence].
      destruct (loginAuth s) as [s1 [u|e]]; cbn; congruence. }
  pose proof (clientToken_authMode s) as Hmode.
  assert (Hnone : authMode (client s) <> ModeNone).
  { intros Hn. rewrite (clientToken_none s Hn) in Hret. discriminate. }
  unfold clientToken at 1.
  cbn [client]. rewrite Hmode.
  assert (Hstale : credentialStale {| client := client (fst (clientToken s)); hub := later;
                                      sent := sent (fst (clientToken s)) |} = false).
  { unfold credentialStale. cbn [client hub]. now rewrite Hjwt, Htruthy, Hfresh. }
  destruct (authMode (client s)); [| |congruence]; rewrite Hstale; cbn [client];
    now rewrite Hjwt.
Qed.

(** X15. A refused login is not remembered: the client is left as it was, so the
    next call logs in again; one login request was sent, and [token()]
    throws with the status and the body of the answer. *)
Theorem clientToken_login_refused :
  forall (s : Session) (hub1 : Hub) (res : HttpResponse),
    authMode (client s) = ModeLogin ->
    credentialStale s = true ->
    fetch (LoginRequest (baseUrl (client s)) (uiUser (client s)) (uiPass (client s))) (hub s)
    = (hub1, Responded res) ->
    res_ok res = false ->
    clientToken s
    = ({| client := client s; hub := hub1;
          sent := sent s ++ [ LoginRequest (baseUrl (client s)) (uiUser (client s))
                                (uiPass (client s)) ] |},
       Throw (LoginFailed (res_status res) (default "" (res_text res))))
    /\ forall (uniqueId : JSValue) (ctype : string) (v : JSValue),
         setCharacteristic uniqueId ctype v s
         = ({| client := client s; hub := hub1;
               sent := sent s ++ [ LoginRequest (baseUrl (client s)) (uiUser (client s))
                                     (uiPass (client s)) ] |},
            Throw (LoginFailed (res_status res) (default "" (res_text res)))).
Proof.
  intros s hub1 res Hmode Hstale Hfetch Hok.
  assert (Htoken : clientToken s
    = ({| client := client s; hub := hub1;
          sent := sent s ++ [ LoginRequest (baseUrl (client s)) (uiUser (client s))
                                (uiPass (client s)) ] |},
       Throw (LoginFailed (res_status res) (default "" (res_text res))))).
  { unfold clientToken. rewrite Hmode, Hstale.
    unfold loginAuth, doFetch. rewrite Hfetch, Hok. reflexivity. }
  split; [exact Htoken|].
  intros uniqueId ctype v. unfold setCharacteristic. now rewrite Htoken.
Qed.


End ClientProperties.

Lemma newUiClient_baseUrl_witness :
  exists tail : string,
    "http://hub:8581//"
    = baseUrl (snd (@newUiClient exampleHost "/s" (Some "http://hub:8581//") None None
                      emptyWorld)) +:+ tail
    /\ string_forall (fun c => Ascii.eqb c "/") tail = true.
Proof.
  apply (proj2 (proj2 (@newUiClient_baseUrl exampleHost "/s" (Some "http://hub:8581//")
                         None None emptyWorld)) "http://hub:8581//");
    [reflexivity|discriminate].
Defined.

(** A declared URL made of slashes only leaves an empty base URL. *)
Example newUiClient_baseUrl_slashes :
  baseUrl (snd (@newUiClient exampleHost "/s" (Some "///") None None emptyWorld)) = "".
Proof. reflexivity. Qed.

Lemma clientToken_jwt_direct_offline_witness :
  hub (fst (@clientToken exampleHost exampleSession)) = hub exampleSession
  /\ sent (fst (@clientToken exampleHost exampleSession)) = sent exampleSession
  /\ snd (@clientToken exampleHost exampleSession)
     = Return (jwt (client (fst (@clientToken exampleHost exampleSession))))
  /\ (@credentialStale exampleHost exampleSession = true ->
      jwt (client (fst (@clientToken exampleHost exampleSession)))
      = VStr (@signJwt exampleHost (client exampleSession)
                (@Date_now exampleHost (hub exampleSession)))
      /\ jwtExpires (client (fst (@clientToken exampleHost exampleSession)))
         = num_add (@Date_now exampleHost (hub exampleSession)) (num 25200000))
  /\ (@credentialStale exampleHost exampleSession = false ->
      fst (@clientToken exampleHost exampleSession) = exampleSession).
Proof.
  apply (@clientToken_jwt_direct_offline exampleHost exampleSession). reflexivity.
Defined.

Lemma clientToken_reuse_witness :
  @clientToken exampleHost
    (@Build_Session exampleHost
       (client (fst (@clientToken exampleHost exampleSession)))
       (7%nat : @Hub exampleHost)
       (sent (fst (@clientToken exampleHost exampleSession))))
  = (@Build_Session exampleHost
       (client (fst (@clientToken exampleHost exampleSession)))
       (7%nat : @Hub exampleHost)
       (sent (fst (@clientToken exampleHost exampleSession))),
     Return (VStr "signed")).
Proof.
  apply (@clientToken_reuse exampleHost exampleSession (VStr "signed")
           (7%nat : @Hub exampleHost)); reflexivity.
Defined.

Lemma clientToken_login_refused_witness :
  @clientToken loginHost (loginSession "wrong")
  = (@Build_Session loginHost (client (loginSession "wrong")) (1%nat : @Hub loginHost)
       (sent (loginSession "wrong")
        ++ [ LoginRequest (baseUrl (client (loginSession "wrong")))
               (uiUser (client (loginSession "wrong")))
               (uiPass (client (loginSession "wrong"))) ]),
     Throw (LoginFailed 401 "bad credentials"))
  /\ forall (uniqueId : JSValue) (ctype : string) (v : JSValue),
       @setCharacteristic loginHost uniqueId ctype v (loginSession "wrong")
       = (@Build_Session loginHost (client (loginSession "wrong")) (1%nat : @Hub loginHost)
            (sent (loginSession "wrong")
             ++ [ LoginRequest (baseUrl (client (loginSession "wrong")))
                    (uiUser (client (loginSession "wrong")))
                    (uiPass (client (loginSession "wrong"))) ]),
          Throw (LoginFailed 401 "bad credentials")).
Proof.
  apply (@clientToken_login_refused loginHost (loginSession "wrong") (1%nat : @Hub loginHost)
           {| res_ok := false; res_status := 401; res_text := Some "bad credentials";
              res_json := None |});
    reflexivity.
Defined.


(** A login with the right password, then the write with the credential
    received. *)
Example setCharacteristic_logs_in_first :
  sent (fst (@setCharacteristic loginHost (VStr "lamp") "On" (VBool true)
               (loginSession "secret")))
  = [ LoginRequest "http://localhost:8581" (Some "admin") (Some "secret");
      PutCharacteristic "http://localhost:8581" "lamp" "On" (VBool true)
        "Bearer credential" ].
Proof. vm_compute. reflexivity. Qed.

(** *** The routes *)

Section RouteProperties.
Context `{CatalogHost}.

Lemma withSession_same (g : Gateway) : withSession g (session g) = g.
Proof. destruct g. reflexivity. Qed.

Lemma getAccessories_none g :
  authMode (client (session g)) = ModeNone ->
  getAccessories g = (g, ReadFailed (ViaClient NoAuthMethod)).
Proof.
  intros Hmode. unfold getAccessories.
  rewrite (clientToken_none _ Hmode), withSession_same. reflexivity.
Qed.

Lemma setCharacteristic_none uid ctype v s :
  authMode (client s) = ModeNone ->
  setCharacteristic uid ctype v s = (s, Throw NoAuthMethod).
Proof. intros Hmode. unfold setCharacteristic. now rewrite (clientToken_none s Hmode). Qed.

Lemma writeAll_none uid ops results s :
  authMode (client s) = ModeNone -> fst (writeAll uid ops results s) = s.
Proof.
  intros Hmode. destruct ops as [|op ops]; [reflexivity|].
  cbn [writeAll]. now rewrite setCharacteristic_none.
Qed.

Lemma controlItem_none item s :
  authMode (client s) = ModeNone -> fst (controlItem item s) = s.
Proof.
  intros Hmode. unfold controlItem.
  destruct (resolveAction _ _) as [|op|ops]; [reflexivity| |].
  - pose proof (writeAll_none (item_id item) [op] [] s Hmode) as Hw.
    cbn [operationsOf]. destruct (writeAll (item_id item) [op] [] s) as [s1 [rs|e]]; exact Hw.
  - pose proof (writeAll_none (item_id item) ops [] s Hmode) as Hw.
    cbn [operationsOf]. destruct (writeAll (item_id item) ops [] s) as [s1 [rs|e]]; exact Hw.
Qed.

Lemma batchLoop_none items results s :
  authMode (client s) = ModeNone -> fst (batchLoop items results s) = s.
Proof.
  intros Hmode. revert results. induction items as [|item items IH]; intros results;
    [reflexivity|].
  cbn [batchLoop]. pose proof (controlItem_none item s Hmode) as Hitem.
  destruct (controlItem item s) as [s1 entry]. cbn in Hitem. subst s1. apply IH.
Qed.

Lemma controlOne_none id reqBody s :
  authMode (client s) = ModeNone -> fst (controlOne id reqBody s) = s.
Proof.
  intros Hmode. unfold controlOne.
  destruct (negb (Boolean (requestAction reqBody))); [reflexivity|].
  destruct (resolveAction _ _) as [|op|ops] eqn:Hres; [reflexivity| |].
  - pose proof (writeAll_none (VStr id) [op] [] s Hmode) as Hw.
    cbn [operationsOf]. destruct (writeAll (VStr id) [op] [] s) as [s1 [rs|e]]; exact Hw.
  - pose proof (writeAll_none (VStr id) ops [] s Hmode) as Hw.
    cbn [operationsOf]. destruct (writeAll (VStr id) ops [] s) as [s1 [rs|e]]; exact Hw.
Qed.

(** X17. Without the exact bearer header every route but the health route
    answers 401 and does nothing: no read, no write, no login. The health
    route answers whatever the header is. *)
Theorem serve_requires_bearer :
  forall (authorization : option string) (req : ApiRequest) (g : Gateway),
    (req <> GetHealth ->
     authorization <> Some ("Bearer " +:+ apiToken g) ->
     serve authorization req g = (g, Catalog 401 Unauthorized))
    /\ serve authorization GetHealth g = healthRoute g.
Proof.
  intros authorization req g. split; [|reflexivity].
  intros Hreq Hheader.
  assert (Hauth : auth authorization (apiToken g) = false).
  { destruct (auth authorization (apiToken g)) eqn:Ha; [|reflexivity].
    apply auth_header in Ha. contradiction. }
  destruct req; try congruence; unfold serve; now rewrite Hauth.
Qed.

(** X18. A gateway whose client has no auth method never reaches the hub: every
    request leaves the gateway exactly as it was; the health route answers
    degraded with no device, and the three catalog routes answer 502. *)
Theorem serve_without_auth_method :
  forall (authorization : option string) (req : ApiRequest) (g : Gateway),
    authMode (client (session g)) = ModeNone ->
    fst (serve authorization req g) = g
    /\ serve authorization GetHealth g
       = (g, Catalog 200 (Health "degraded" PLUGIN_NAME VERSION 0))
    /\ (auth authorization (apiToken g) = true ->
        forall p : string,
          serve authorization GetDevices g
          = (g, Catalog 502 (UpstreamError (ViaClient NoAuthMethod)))
          /\ serve authorization (GetDevicesByType p) g
             = (g, Catalog 502 (UpstreamError (ViaClient NoAuthMethod)))
          /\ serve authorization (GetDevice p) g
             = (g, Catalog 502 (UpstreamError (ViaClient NoAuthMethod)))).
Proof.
  intros authorization req g Hmode.
  split; [|split].
  - destruct req; unfold serve, healthRoute, listDevices, listDevicesByType, getDevice;
      rewrite ?(getAccessories_none g Hmode);
      try reflexivity;
      destruct (auth authorization (apiToken g)); try reflexivity.
    + pose proof (controlOne_none id_param reqBody (session g) Hmode) as Hc.
      destruct (controlOne id_param reqBody (session g)) as [s1 response].
      cbn in Hc |- *. subst s1. apply withSession_same.
    + assert (Hb : fst (controlBatch devices (session g)) = session g).
      { unfold controlBatch. destruct devices as [items|]; [|reflexivity].
        pose proof (batchLoop_none items [] (session g) Hmode) as Hl.
        destruct (batchLoop items [] (session g)) as [s1 results]. exact Hl. }
      destruct (controlBatch devices (session g)) as [s1 response].
      cbn in Hb |- *. subst s1. apply withSession_same.
  - unfold serve, healthRoute. now rewrite (getAccessories_none g Hmode).
  - intros Hauth p. unfold serve, listDevices, listDevicesByType, getDevice.
    now rewrite Hauth, (getAccessories_none g Hmode).
Qed.

Lemma getAccessories_frame g :
  apiToken (fst (getAccessories g)) = apiToken g
  /\ writesOf (sent (session (fst (getAccessories g)))) = writesOf (sent (session g))
  /\ (reads (fst (getAccessories g)) = reads g
      \/ exists base authorization,
           reads (fst (getAccessories g)) = reads g ++ [(base, authorization)]).
Proof.
  unfold getAccessories.
  destruct (clientToken_sent (session g)) as (extra & Hsent & Hw).
  destruct (clientToken (session g)) as [s1 [tok|e]]; cbn [fst] in Hsent.
  - destruct (fetchAccessories _ _ (hub s1)) as [hub1 [reason|ok status json]].
    + cbn. rewrite Hsent, writesOf_app, Hw, app_nil_r. eauto 6.
    + destruct ok; cbn [negb]; [destruct json|];
        cbn; rewrite Hsent, writesOf_app, Hw, app_nil_r; eauto 6.
  - cbn. rewrite Hsent, writesOf_app, Hw, app_nil_r. auto.
Qed.

(** X19. The health route never fails: it always answers 200, with "ok" and the
    size of the catalog when the snapshot was read, with "degraded" and no
    device when it was not. It reads the snapshot anew on every call, at
    most once, and never writes. *)
Theorem healthRoute_never_fails :
  forall g : Gateway,
    ((exists raw : RawSnapshot,
         snd (getAccessories g) = Snapshot raw
         /\ healthRoute g
            = (fst (getAccessories g),
               Catalog 200 (Health "ok" PLUGIN_NAME VERSION
                              (length (parseAccessories raw)))))
     \/ (exists e : ReadError,
           snd (getAccessories g) = ReadFailed e
           /\ healthRoute g
              = (fst (getAccessories g),
                 Catalog 200 (Health "degraded" PLUGIN_NAME VERSION 0))))
    /\ writesOf (sent (session (fst (healthRoute g)))) = writesOf (sent (session g))
    /\ (reads (fst (healthRoute g)) = reads g
        \/ exists base authorization,
             reads (fst (healthRoute g)) = reads g ++ [(base, authorization)]).
Proof.
  intros g. destruct (getAccessories_frame g) as (_ & Hw & Hr).
  unfold healthRoute.
  destruct (getAccessories g) as [g1 [raw|e]]; cbn [fst snd] in *;
    (split; [|split; assumption]); [left|right]; eauto.
Qed.

(** X20. The route by id answers with a device of the catalog that has the id
    asked for, the first in catalog order, and 404 exactly when the catalog
    has none; a record the filter drops is not found under its id. *)
Theorem getDevice_found :
  forall (id_param : string) (g g1 : Gateway) (raw : RawSnapshot),
    getAccessories g = (g1, Snapshot raw) ->
    (exists (d : Device) (before after : list Device),
        getDevice id_param g = (g1, Catalog 200 (DeviceFound d))
        /\ parseAccessories raw = before ++ d :: after
        /\ device_id d = id_param
        /\ forall d' : Device, In d' before -> device_id d' <> id_param)
    \/ (getDevice id_param g = (g1, Catalog 404 (NotFound id_param))
        /\ forall d : Device, In d (parseAccessories raw) -> device_id d <> id_param).
Proof.
  intros id_param g g1 raw Hread. unfold getDevice. rewrite Hread.
  induction (parseAccessories raw) as [|d ds IH].
  - right. split; [reflexivity|]. intros d [].
  - cbn [find]. destruct (String.eqb_spec (device_id d) id_param) as [Heq|Hne].
    + left. exists d, [], ds. repeat split; auto; intros d' [].
    + destruct IH as [(d0 & before & after & Hfound & Hsplit & Hid & Hbefore)|[Hnone Hall]].
      * left. exists d0, (d :: before), after.
        destruct (find _ ds) as [d1|]; [|discriminate].
        inversion Hfound; subst d1. repeat split; auto.
        -- cbn. now rewrite Hsplit.
        -- intros d' [<-|Hin]; auto.
      * right. destruct (find _ ds) as [d1|]; [discriminate|].
        split; [reflexivity|]. intros d' [<-|Hin]; auto.
Qed.

(** X21. The route by type answers 200 with the devices of the catalog whose
    canonical type is the parameter lowered, in catalog order, counted;
    the letter case of the parameter does not matter, and a parameter
    that is no canonical type gives the empty list, not an error. *)
Theorem listDevicesByType_filter :
  forall (type_param : string) (g g1 : Gateway) (raw : RawSnapshot),
    getAccessories g = (g1, Snapshot raw) ->
    exists devices : list Device,
      listDevicesByType type_param g
      = (g1, Catalog 200 (DeviceList (length devices) devices))
      /\ (forall d : Device,
            In d devices
            <-> In d (parseAccessories raw) /\ device_type d = toLowerCase type_param)
      /\ listDevicesByType (toLowerCase type_param) g = listDevicesByType type_param g
      /\ (~ In (toLowerCase type_param) canonicalTypes -> devices = []).
Proof.
  intros type_param g g1 raw Hread. unfold listDevicesByType. rewrite Hread.
  eexists. split; [reflexivity|]. split; [|split].
  - intros d. rewrite filter_In. split; intros [Hin Ht]; split; auto.
    + now apply String.eqb_eq.
    + now apply String.eqb_eq.
  - now rewrite toLowerCase_idempotent.
  - intros Hnot.
    assert (Hall : forall d, In d (parseAccessories raw) ->
                             String.eqb (device_type d) (toLowerCase type_param) = false).
    { intros d Hd. destruct (String.eqb_spec (device_type d) (toLowerCase type_param))
        as [Heq|]; [|reflexivity].
      exfalso. apply Hnot. rewrite <- Heq.
      destruct raw as [services|]; [|contradiction].
      unfold parseAccessories in Hd. rewrite fold_parseService in Hd. cbn in Hd.
      apply in_flat_map in Hd as (svc & _ & Hd).
      destruct (parseService_cases svc) as [Hnone|(uid & _ & _ & _ & _ & _ & Hone)].
      - rewrite Hnone in Hd. contradiction.
      - rewrite Hone in Hd. destruct Hd as [<-|[]]. apply mapType_canonical. }
    induction (parseAccessories raw) as [|d ds IH]; [reflexivity|].
    cbn [List.filter]. rewrite (Hall d (or_introl eq_refl)). apply IH.
    intros d' Hd'. apply Hall. now right.
Qed.

End RouteProperties.

Lemma serve_requires_bearer_witness :
  @serve exampleHost exampleCatalogHost None GetDevices exampleGateway
  = (exampleGateway, Catalog 401 Unauthorized).
Proof.
  apply (proj1 (@serve_requires_bearer exampleHost exampleCatalogHost None GetDevices
                  exampleGateway)); discriminate.
Defined.

Lemma serve_without_auth_method_witness :
  fst (@serve exampleHost exampleCatalogHost (Some "Bearer 0123456789abcdef")
         (PostControl "lamp" colorRequest) lockedOutGateway)
  = lockedOutGateway
  /\ @serve exampleHost exampleCatalogHost (Some "Bearer 0123456789abcdef") GetHealth
       lockedOutGateway
     = (lockedOutGateway, Catalog 200 (Health "degraded" PLUGIN_NAME VERSION 0))
  /\ (auth (Some "Bearer 0123456789abcdef") (apiToken lockedOutGateway) = true ->
      forall p : string,
        @serve exampleHost exampleCatalogHost (Some "Bearer 0123456789abcdef") GetDevices
          lockedOutGateway
        = (lockedOutGateway, Catalog 502 (UpstreamError (ViaClient NoAuthMethod)))
        /\ @serve exampleHost exampleCatalogHost (Some "Bearer 0123456789abcdef")
             (GetDevicesByType p) lockedOutGateway
           = (lockedOutGateway, Catalog 502 (UpstreamError (ViaClient NoAuthMethod)))
        /\ @serve exampleHost exampleCatalogHost (Some "Bearer 0123456789abcdef")
             (GetDevice p) lockedOutGateway
           = (lockedOutGateway, Catalog 502 (UpstreamError (ViaClient NoAuthMethod)))).
Proof.
  apply (@serve_without_auth_method exampleHost exampleCatalogHost
           (Some "Bearer 0123456789abcdef") (PostControl "lamp" colorRequest)
           lockedOutGateway).
  reflexivity.
Defined.

Lemma getDevice_found_witness :
  (exists (d : Device) (before after : list Device),
      @getDevice exampleHost exampleCatalogHost "c3" exampleGateway
      = (fst (@getAccessories exampleHost exampleCatalogHost exampleGateway),
         Catalog 200 (DeviceFound d))
      /\ parseAccessories exampleSnapshot = before ++ d :: after
      /\ device_id d = "c3"
      /\ forall d' : Device, In d' before -> device_id d' <> "c3")
  \/ (@getDevice exampleHost exampleCatalogHost "c3" exampleGateway
      = (fst (@getAccessories exampleHost exampleCatalogHost exampleGateway),
         Catalog 404 (NotFound "c3"))
      /\ forall d : Device, In d (parseAccessories exampleSnapshot) -> device_id d <> "c3").
Proof.
  apply (@getDevice_found exampleHost exampleCatalogHost "c3" exampleGateway
           (fst (@getAccessories exampleHost exampleCatalogHost exampleGateway))
           exampleSnapshot).
  reflexivity.
Defined.

Lemma listDevicesByType_filter_witness :
  exists devices : list Device,
    @listDevicesByType exampleHost exampleCatalogHost "Thermostat" exampleGateway
    = (fst (@getAccessories exampleHost exampleCatalogHost exampleGateway),
       Catalog 200 (DeviceList (length devices) devices))
    /\ (forall d : Device,
          In d devices
          <-> In d (parseAccessories exampleSnapshot)
              /\ device_type d = toLowerCase "Thermostat")
    /\ @listDevicesByType exampleHost exampleCatalogHost (toLowerCase "Thermostat")
         exampleGateway
       = @listDevicesByType exampleHost exampleCatalogHost "Thermostat" exampleGateway
    /\ (~ In (toLowerCase "Thermostat") canonicalTypes -> devices = []).
Proof.
  apply (@listDevicesByType_filter exampleHost exampleCatalogHost "Thermostat" exampleGateway
           (fst (@getAccessories exampleHost exampleCatalogHost exampleGateway))
           exampleSnapshot).
  reflexivity.
Defined.

(** The routes on the example hub: the own record of the plugin is not
    found under its id, the type parameter is matched in any letter case,
    and a hub that answers 503 degrades the health answer. *)
Example getDevice_own_record_not_found :
  snd (@serve exampleHost exampleCatalogHost (Some "Bearer 0123456789abcdef")
         (GetDevice "b2") exampleGateway)
  = Catalog 404 (NotFound "b2").
Proof. vm_compute. reflexivity. Qed.

Example listDevicesByType_any_case :
  match snd (@serve exampleHost exampleCatalogHost (Some "Bearer 0123456789abcdef")
               (GetDevicesByType "LIGHTBULB") exampleGateway) with
  | Catalog 200 (DeviceList 1 [d]) => device_id d = "a1"
  | _ => False
  end.
Proof. vm_compute. reflexivity. Qed.

Example healthRoute_hub_down :
  snd (@serve exampleHost exampleCatalogHost None GetHealth loginGateway)
  = Catalog 200 (Health "degraded" PLUGIN_NAME VERSION 0)
  /\ reads (fst (@serve exampleHost exampleCatalogHost None GetHealth loginGateway))
     = [ ("http://down", "Bearer credential") ].
Proof. vm_compute. split; reflexivity. Qed.

(** *** More on action resolution *)



Section ActionProperties.
Context `{Host}.

Lemma resolveAction_known name v :
  In name actionNames -> resolveAction (VStr name) v <> Null.
Proof.
  intros Hin. simpl in Hin.
  repeat (destruct Hin as [<-|Hin]; [discriminate|]).
  contradiction.
Qed.

Lemma resolveAction_unknown a v :
  (forall name, In name actionNames -> a <> name) ->
  resolveAction (VStr a) v = Null.
Proof.
  intros Hall. unfold resolveAction, is_case.
  repeat match goal with
         | |- context [String.eqb a ?l] =>
             rewrite (proj2 (String.eqb_neq a l)) by (apply Hall; cbn; tauto)
         end.
  reflexivity.
Qed.

(** X22. An action resolves exactly when its name is one of the 23 names of the
    vocabulary, spelled in the same letter case; whether it resolves never
    depends on the value. *)
Theorem resolveAction_vocabulary :
  forall action v : JSValue,
    (resolveAction action v = Null
     <-> forall name : string, In name actionNames -> action <> VStr name)
    /\ forall v' : JSValue,
         resolveAction action v = Null -> resolveAction action v' = Null.
Proof.
  assert (Hiff : forall action v,
    resolveAction action v = Null
    <-> forall name : string, In name actionNames -> action <> VStr name).
  { intros action v. split.
    - intros Hnull name Hin ->. now apply (resolveAction_known name v).
    - intros Hall. destruct action as [| |b|n|a|items|fields|b]; try reflexivity.
      apply resolveAction_unknown. intros name Hin ->. now apply (Hall name). }
  intros action v. split; [apply Hiff|].
  intros v' Hnull. apply Hiff. now apply (Hiff action v).
Qed.




(** X25. The colour action does not clamp: a hue or a saturation given inside
    the colour object goes to the hub as it is, where the same number given
    to the hue or the saturation action would be brought down to 360 or
    100. *)
Theorem color_not_clamped :
  forall n : number,
    resolveAction (VStr "color") (VObj [("hue", VNum n)])
    = Many [ {| characteristicType := "Hue"; value := VNum n |} ]
    /\ resolveAction (VStr "color") (VObj [("saturation", VNum n)])
       = Many [ {| characteristicType := "Saturation"; value := VNum n |} ]
    /\ (SFltb (num 360) n = true ->
        resolveAction (VStr "hue") (VNum n)
        = One {| characteristicType := "Hue"; value := VNum (num 360) |})
    /\ (SFltb (num 100) n = true ->
        resolveAction (VStr "saturation") (VNum n)
        = One {| characteristicType := "Saturation"; value := VNum (num 100) |}).
Proof.
  intros n. split; [reflexivity|]. split; [reflexivity|].
  assert (Hnan : forall b, SFltb b n = true -> is_nan n = false).
  { intros b Hb. unfold SFltb in Hb. destruct (SFcompare b n) eqn:Hc; [|discriminate].
    now destruct (SFcompare_some_not_nan _ _ _ Hc). }
  split; intros Habove.
  - change (resolveAction (VStr "hue") (VNum n))
      with (One {| characteristicType := "Hue";
                   value := VNum (Math_max (num 0) (Math_min (num 360) n)) |}).
    do 2 f_equal. f_equal.
    apply (clamp_within (num 0) (num 360) n); try (vm_compute; congruence);
      eauto.
  - change (resolveAction (VStr "saturation") (VNum n))
      with (One {| characteristicType := "Saturation";
                   value := VNum (Math_max (num 0) (Math_min (num 100) n)) |}).
    do 2 f_equal. f_equal.
    apply (clamp_within (num 0) (num 100) n); try (vm_compute; congruence);
      eauto.
Qed.

(** X26. The switch-like actions look at the truthiness of the value and never
    read a string: every non-empty string, "false" and "off" included,
    switches on, locks, and opens the garage door. *)
Theorem boolean_actions_strings :
  forall s : string,
    s <> "" ->
    resolveAction (VStr "on") (VStr s)
    = One {| characteristicType := "On"; value := VBool true |}
    /\ resolveAction (VStr "lock") (VStr s)
       = One {| characteristicType := "LockTargetState"; value := VNum (num 1) |}
    /\ resolveAction (VStr "garageDoor") (VStr s)
       = One {| characteristicType := "TargetDoorState"; value := VNum (num 0) |}.
Proof.
  intros s Hs. destruct s as [|c s]; [congruence|]. repeat split.
Qed.

End ActionProperties.

Lemma resolveAction_vocabulary_witness :
  @resolveAction exampleHost (VStr "Brightness") (VNum (num 10)) = Null.
Proof.
  apply (proj2 (proj1 (@resolveAction_vocabulary exampleHost (VStr "Brightness")
                         (VNum (num 10))))).
  intros name Hin Heq. inversion Heq; subst. simpl in Hin.
  repeat (destruct Hin as [Hin|Hin]; [discriminate|]). contradiction.
Defined.



Lemma color_not_clamped_witness :
  @resolveAction exampleHost (VStr "hue") (VNum (num 400))
  = One {| characteristicType := "Hue"; value := VNum (num 360) |}.
Proof.
  apply (proj1 (proj2 (proj2 (@color_not_clamped exampleHost (num 400))))).
  reflexivity.
Defined.

Lemma boolean_actions_strings_witness :
  @resolveAction exampleHost (VStr "on") (VStr "off")
  = One {| characteristicType := "On"; value := VBool true |}.
Proof.
  apply (proj1 (@boolean_actions_strings exampleHost "off" ltac:(discriminate))).
Defined.
